(** * Transcript Feedback Viewer: a shallow embedding of [src/App.tsx]

    The component [App] keeps seven pieces of React state, issues three kinds
    of read queries through the Supabase client and renders the state as a
    pure projection.  The embedding follows the source function by function:

    - JavaScript values ([undefined], [null], truthiness, [||], [&&], [??]);
    - the record types [User], [Feedback], [StoredItem];
    - the async functions [fetchLatestUsers], [fetchUsers], [fetchData] as
      programs of a small free monad with state writes, [console.error],
      exceptions and [await];
    - the event loop that runs them (mount, selector change, promise
      settlement) together with React's re-run of the second effect when one of
      its dependencies [selectedEmail], [users] changes;
    - the JSX of [App] as a tree of nodes. *)

From Stdlib Require Import String List Bool Arith ZArith Lia DecimalString.
Import ListNotations.
Open Scope string_scope.
Open Scope list_scope.

Set Implicit Arguments.
Set Warnings "-register-all".

(** ** JavaScript values *)

(** A field declared [f?: T | null]: absent ([undefined]), [null] or a value. *)
Inductive nullable (A : Type) : Type :=
| undefined
| null
| val (a : A).
Arguments undefined {A}.
Arguments null {A}.
Arguments val {A} a.

(** [ToBoolean]: what [if (x)], [!x], [x || y], [x && y] and [x ? a : b] test. *)
Class Truthy (A : Type) : Type := truthy : A -> bool.

#[global] Instance Truthy_bool : Truthy bool := fun b => b.

(** A string is falsy exactly when it is empty. *)
#[global] Instance Truthy_string : Truthy string :=
  fun s => match s with EmptyString => false | String _ _ => true end.

#[global] Instance Truthy_nullable {A} `{Truthy A} : Truthy (nullable A) :=
  fun x => match x with val a => truthy a | undefined | null => false end.

(** [T | null], with [None] for [null]. *)
#[global] Instance Truthy_option {A} `{Truthy A} : Truthy (option A) :=
  fun x => match x with Some a => truthy a | None => false end.

(** [x || y] when both sides have one type. *)
Definition js_or {A} `{Truthy A} (x y : A) : A := if truthy x then x else y.

(** The string a prop receives from a field that was tested to be set. *)
Definition string_of (x : nullable string) : string :=
  match x with val s => s | undefined | null => "" end.

(** [selectedEmail || ''] *)
Definition or_empty_string (x : option string) : string :=
  match js_or x (Some "") with Some s => s | None => "" end.

(** [data || []]: an array, even an empty one, is an object and so truthy. *)
Definition or_empty {A} (data : option (list A)) : list A :=
  match data with Some l => l | None => [] end.

(** ** Record types of the source *)

Record User : Type := mkUser {
  user_id : string;
  email : string;
  created_at : nullable string
}.

Record StoredItem : Type := mkStoredItem {
  it_id : string;
  item_name : string;
  it_location : string;
  notes : option string;
  it_created_at : string
}.

(** The error object of a query result ([PostgrestError]); an object, hence
    truthy whenever it is present. *)
Record PostgrestError : Type := mkPostgrestError {
  pg_message : string;
  pg_code : string
}.

(** The [{ data, error }] object a query resolves to. *)
Record Response (A : Type) : Type := mkResponse {
  res_data : option (list A);
  res_error : option PostgrestError
}.

#[global] Instance Truthy_PostgrestError : Truthy PostgrestError := fun _ => true.

(** What [throw] carries in this program: [new Error(msg)], a query's error
    object, [null], or the reason of a rejected promise. *)
Inductive Thrown : Type :=
| JsError (msg : string)
| QueryFailed (e : PostgrestError)
| ThrownNull
| Rejection (reason : string).

(** Arguments of [console.error]. *)
Inductive LogArg : Type :=
| LogStr (s : string)
| LogPg (e : PostgrestError)
| LogThrown (t : Thrown).

(** The query builder chain: [from(table).select(columns).eq(col, v)
    .order(col, {ascending}).limit(n)]; [order(col)] alone is ascending. *)
Record Query : Type := mkQuery {
  q_from : string;
  q_select : string;
  q_eq : option (string * string);
  q_order : string * bool;
  q_limit : option nat
}.

(** A concrete fragment of the JavaScript numbers, used where a property
    is evaluated: the safe integers ([Number.isSafeInteger]), between
    [-(2^53 - 1)] and [2^53 - 1].  On these [String(n)] is the decimal numeral,
    with a leading minus sign for a negative one.  The properties themselves
    are proved for any type of numbers and any conversion to text. *)
Definition is_safe_integer (z : Z) : bool := (Z.abs z <=? 9007199254740991)%Z.

Record SafeInteger : Type := mkSafeInteger {
  int_value : Z;
  int_safe : is_safe_integer int_value = true
}.

Definition SafeInteger_toString (n : SafeInteger) : string :=
  NilZero.string_of_int (Z.to_int (int_value n)).

Definition safe_zero : SafeInteger := {| int_value := 0; int_safe := eq_refl |}.

(** Two loaded users. *)
Definition alice : User :=
  {| user_id := "u-1"; email := "alice@example.com"; created_at := undefined |}.
Definition bob : User :=
  {| user_id := "u-2"; email := "bob@example.com"; created_at := undefined |}.

(** A user whose email is the empty string. *)
Definition nameless : User :=
  {| user_id := "u-0"; email := ""; created_at := undefined |}.

Definition permission_denied : PostgrestError :=
  {| pg_message := "permission denied"; pg_code := "42501" |}.

Section App.

(** The JavaScript [number] type and the two conversions to text that the
    runtime, not the program, performs: [String(n)] for a number child of a
    JSX element, and [new Date(s).toLocaleString()]. *)
Variable number : Type.
Variable Number_toString : number -> string.
Variable Date_toLocaleString : string -> string.

Record Feedback : Type := mkFeedback {
  fb_id : string;
  fb_created_at : string;
  fb_user_id : string;
  transcript : nullable string;
  intent : nullable string;
  item : nullable string;
  location : nullable string;
  confidence_score : nullable number;
  action_type : nullable string;
  was_correct : nullable bool;
  corrected_item : nullable string;
  corrected_location : nullable string;
  corrected_command : nullable string;
  note : nullable string;
  audio_url : nullable string
}.

(** ** JSX nodes *)

(** A React node.  [Elem] keeps the props that carry data ([key], [id],
    [value], [htmlFor], [src], [controls]); the inline [style] objects are
    presentation only and are left out. *)
Inductive node : Type :=
| Nothing
| Text (s : string)
| Num (n : number)
| Arr (l : list node)
| Elem (tag : string) (props : list (string * string)) (children : list node).

(** How a JavaScript value becomes a child: [null], [undefined] and booleans
    render nothing, strings and numbers render as themselves. *)
Class Child (A : Type) : Type := child : A -> node.

#[local] Instance Child_node : Child node := fun n => n.
#[local] Instance Child_string : Child string := Text.
#[local] Instance Child_number : Child number := Num.
#[local] Instance Child_bool : Child bool := fun _ => Nothing.
#[local] Instance Child_nullable {A} `{Child A} : Child (nullable A) :=
  fun x => match x with val a => child a | undefined | null => Nothing end.
#[local] Instance Child_option {A} `{Child A} : Child (option A) :=
  fun x => match x with Some a => child a | None => Nothing end.

(** [{x || y}], [{x && y}], [{x ?? y}] and [{c ? x : y}] in child position. *)
Definition jsx_or {A B} `{Truthy A} `{Child A} `{Child B} (x : A) (y : B) : node :=
  if truthy x then child x else child y.

Definition jsx_and {A B} `{Truthy A} `{Child A} `{Child B} (x : A) (y : B) : node :=
  if truthy x then child y else child x.

Definition jsx_coalesce {A B} `{Child A} `{Child B} (x : nullable A) (y : B) : node :=
  match x with val a => child a | undefined | null => child y end.

Definition jsx_cond {A B C} `{Truthy A} `{Child B} `{Child C} (c : A) (x : B) (y : C) : node :=
  if truthy c then child x else child y.

(** The children React mounts: arrays are flattened, empty nodes dropped. *)
Fixpoint flatten (n : node) : list node :=
  match n with
  | Nothing => []
  | Arr l => (fix go (l : list node) : list node :=
                match l with [] => [] | x :: r => flatten x ++ go r end) l
  | other => [other]
  end.

Definition flatten_children (l : list node) : list node := flatten (Arr l).

(** [textContent] of the rendered node. *)
Fixpoint textContent (n : node) : string :=
  match n with
  | Nothing => ""
  | Text s => s
  | Num x => Number_toString x
  | Arr l => (fix go (l : list node) : string :=
                match l with [] => "" | x :: r => String.append (textContent x) (go r) end) l
  | Elem _ _ cs => (fix go (l : list node) : string :=
                match l with [] => "" | x :: r => String.append (textContent x) (go r) end) cs
  end.

Definition em (s : string) : node := Elem "em" [] [Text s].
Definition strong (s : string) : node := Elem "strong" [] [Text s].

(** ** Component state *)

(** The seven [useState] cells.  [users_ref] stands for the identity of the
    array held in [users]: React compares effect dependencies with
    [Object.is], and every [setUsers(data || [])] stores a fresh array. *)
Record State : Type := mkState {
  users : list User;
  users_ref : nat;
  selectedEmail : option string;
  feedback : list Feedback;
  items : list StoredItem;
  loading : bool;
  error : option string;
  latestUsers : list User
}.

(** The initial values given to [useState]. *)
Definition initial_state : State :=
  {| users := []; users_ref := 0; selectedEmail := None; feedback := [];
     items := []; loading := false; error := None; latestUsers := [] |}.

(** State setters and [console.error]. *)
Inductive Action : Type :=
| setUsers (l : list User)
| setSelectedEmail (e : option string)
| setFeedback (l : list Feedback)
| setItems (l : list StoredItem)
| setLoading (b : bool)
| setError (e : option string)
| setLatestUsers (l : list User)
| console_error (args : list LogArg).

Definition apply_setter (a : Action) (s : State) : State :=
  match a with
  | setUsers l =>
      {| users := l; users_ref := S (users_ref s); selectedEmail := selectedEmail s;
         feedback := feedback s; items := items s; loading := loading s;
         error := error s; latestUsers := latestUsers s |}
  | setSelectedEmail e =>
      {| users := users s; users_ref := users_ref s; selectedEmail := e;
         feedback := feedback s; items := items s; loading := loading s;
         error := error s; latestUsers := latestUsers s |}
  | setFeedback l =>
      {| users := users s; users_ref := users_ref s; selectedEmail := selectedEmail s;
         feedback := l; items := items s; loading := loading s;
         error := error s; latestUsers := latestUsers s |}
  | setItems l =>
      {| users := users s; users_ref := users_ref s; selectedEmail := selectedEmail s;
         feedback := feedback s; items := l; loading := loading s;
         error := error s; latestUsers := latestUsers s |}
  | setLoading b =>
      {| users := users s; users_ref := users_ref s; selectedEmail := selectedEmail s;
         feedback := feedback s; items := items s; loading := b;
         error := error s; latestUsers := latestUsers s |}
  | setError e =>
      {| users := users s; users_ref := users_ref s; selectedEmail := selectedEmail s;
         feedback := feedback s; items := items s; loading := loading s;
         error := e; latestUsers := latestUsers s |}
  | setLatestUsers l =>
      {| users := users s; users_ref := users_ref s; selectedEmail := selectedEmail s;
         feedback := feedback s; items := items s; loading := loading s;
         error := error s; latestUsers := l |}
  | console_error _ => s
  end.

(** ** Async functions as programs *)

(** What an [await] waits for: one query on [user_profiles], or the
    [Promise.all] of the feedback query and the items query. *)
Inductive Request : Type -> Type :=
| OneQuery (q : Query) : Request (Response User)
| PromiseAll (qf qi : Query) : Request (Response Feedback * Response StoredItem).

Definition queries_of {R} (r : Request R) : list Query :=
  match r with
  | OneQuery q => [q]
  | PromiseAll qf qi => [qf; qi]
  end.

Inductive Settled (R : Type) : Type :=
| Fulfilled (x : R)
| Rejected (t : Thrown).
Arguments Rejected {R} t.

(** A program: return, [throw], a synchronous action, or suspension at an
    [await] with the rest of the function as continuation. *)
Inductive Prog (A : Type) : Type :=
| Ret (a : A)
| Throw (t : Thrown)
| Do (a : Action) (k : Prog A)
| Await (R : Type) (r : Request R) (k : Settled R -> Prog A).
Arguments Throw {A} t.
Arguments Await {A R} r k.

Fixpoint bind {A B} (p : Prog A) (f : A -> Prog B) : Prog B :=
  match p with
  | Ret a => f a
  | Throw t => Throw t
  | Do a k => Do a (bind k f)
  | Await r k => Await r (fun s => bind (k s) f)
  end.

(** [try { p } catch (err) { h err }] *)
Fixpoint try_catch {A} (p : Prog A) (h : Thrown -> Prog A) : Prog A :=
  match p with
  | Ret a => Ret a
  | Throw t => h t
  | Do a k => Do a (try_catch k h)
  | Await r k => Await r (fun s => try_catch (k s) h)
  end.

(** [try { p } finally { f }]: [f] runs on return and on throw alike. *)
Fixpoint finally {A} (p : Prog A) (f : Prog unit) : Prog A :=
  match p with
  | Ret a => bind f (fun _ => Ret a)
  | Throw t => bind f (fun _ => Throw t)
  | Do a k => Do a (finally k f)
  | Await r k => Await r (fun s => finally (k s) f)
  end.

Definition act (a : Action) : Prog unit := Do a (Ret tt).

(** [await r]: the value the promise is fulfilled with, or a throw of the
    reason it is rejected with. *)
Definition settled_value {R} (s : Settled R) : Prog R :=
  match s with Fulfilled x => Ret x | Rejected t => Throw t end.

Definition await {R} (r : Request R) : Prog R := Await r settled_value.

(** [throw v] for [v] of type [PostgrestError | null]. *)
Definition throw_value {A} (v : option PostgrestError) : Prog A :=
  match v with Some e => Throw (QueryFailed e) | None => Throw ThrownNull end.

Declare Scope prog_scope.
Delimit Scope prog_scope with prog.
Notation "x <- p ;; k" := (bind p (fun x => k))
  (at level 61, p at next level, right associativity) : prog_scope.
Notation "p ;; k" := (bind p (fun _ => k))
  (at level 61, right associativity) : prog_scope.

(** [try { p } catch (err) { h err } finally { f }] *)
Definition try_catch_finally {A} (p : Prog A) (h : Thrown -> Prog A) (f : Prog unit)
  : Prog A :=
  finally (try_catch p h) f.
Open Scope prog_scope.

(** The four queries of the source.  In [fetchLatestUsers] and [fetchUsers]
    the test [if (error)] is a match on the error being present: an error
    object is always truthy. *)
Definition latest_users_query : Query :=
  {| q_from := "user_profiles"; q_select := "user_id, email, created_at";
     q_eq := None; q_order := ("created_at", false); q_limit := Some 10 |}.

Definition all_users_query : Query :=
  {| q_from := "user_profiles"; q_select := "user_id, email";
     q_eq := None; q_order := ("email", true); q_limit := None |}.

Definition feedback_query (uid : string) : Query :=
  {| q_from := "transcript_feedback"; q_select := "*";
     q_eq := Some ("user_id", uid); q_order := ("created_at", false);
     q_limit := None |}.

Definition items_query (uid : string) : Query :=
  {| q_from := "stored_items"; q_select := "*";
     q_eq := Some ("user_id", uid); q_order := ("created_at", false);
     q_limit := None |}.

(** Lines 60-64: what [fetchLatestUsers] does with the result. *)
Definition fetchLatestUsers_result (res : Response User) : Prog unit :=
  match res_error res with
  | Some e => act (console_error [LogStr "Failed to fetch latest users:"; LogPg e])
  | None => act (setLatestUsers (or_empty (res_data res)))
  end.

Definition fetchLatestUsers : Prog unit :=
  res <- await (OneQuery latest_users_query) ;;
  fetchLatestUsers_result res.

(** Lines 76-81: what [fetchUsers] does with the result. *)
Definition fetchUsers_result (res : Response User) : Prog unit :=
  match res_error res with
  | Some e => act (setError (Some "Failed to load users")) ;;
              act (console_error [LogPg e])
  | None => act (setUsers (or_empty (res_data res)))
  end.

Definition fetchUsers : Prog unit :=
  res <- await (OneQuery all_users_query) ;;
  fetchUsers_result res.

(** [u.email === selectedEmail] *)
Definition email_is (selected : option string) (u : User) : bool :=
  match selected with
  | Some e => String.eqb (email u) e
  | None => false
  end.

(** Lines 111-116 of [fetchData]: the rest of the [try] block once
    [Promise.all] has resolved to [[feedbackRes, itemsRes]]. *)
Definition fetchData_results (res : Response Feedback * Response StoredItem) : Prog unit :=
  let feedbackRes := fst res in
  let itemsRes := snd res in
  if truthy (res_error feedbackRes) || truthy (res_error itemsRes) then
    throw_value (js_or (res_error feedbackRes) (res_error itemsRes))
  else
    act (setFeedback (or_empty (res_data feedbackRes))) ;;
    act (setItems (or_empty (res_data itemsRes))).

(** Lines 117-119: the [catch (err)] block. *)
Definition fetchData_catch (err : Thrown) : Prog unit :=
  act (setError (Some "Failed to load data")) ;;
  act (console_error [LogThrown err]).

(** Lines 120-122: the [finally] block. *)
Definition fetchData_finally : Prog unit := act (setLoading false).

(** [fetchData] of the second effect; [selectedEmail] and [users] are the
    values its closure captured at render. *)
Definition fetchData (selectedEmail : option string) (users : list User) : Prog unit :=
  if negb (truthy selectedEmail) then Ret tt else
  act (setLoading true) ;;
  act (setError None) ;;
  try_catch_finally
    (user <- match find (email_is selectedEmail) users with
             | Some u => Ret u
             | None => Throw (JsError "User not found")
             end ;;
     res <- await (PromiseAll (feedback_query (user_id user))
                              (items_query (user_id user))) ;;
     fetchData_results res)
    fetchData_catch
    fetchData_finally.

(** The three functions from their [await] on: what runs when the promise
    settles.  [fetchData_suspends] and its companions below show that these are
    the continuations the functions park. *)
Definition fetchLatestUsers_resumed (s : Settled (Response User)) : Prog unit :=
  res <- settled_value s ;; fetchLatestUsers_result res.

Definition fetchUsers_resumed (s : Settled (Response User)) : Prog unit :=
  res <- settled_value s ;; fetchUsers_result res.

Definition fetchData_resumed (s : Settled (Response Feedback * Response StoredItem))
  : Prog unit :=
  try_catch_finally
    (res <- settled_value s ;; fetchData_results res)
    fetchData_catch
    fetchData_finally.

(** ** The event loop *)

(** A suspended async function: the request it awaits and its continuation. *)
Inductive Task : Type :=
| MkTask (R : Type) (r : Request R) (k : Settled R -> Prog unit).

Definition is_detail (t : Task) : bool :=
  match t with
  | MkTask (OneQuery _) _ => false
  | MkTask (PromiseAll _ _) _ => true
  end.

(** The parked functions this program can have. *)
Definition latest_users_task : Task :=
  MkTask (OneQuery latest_users_query) fetchLatestUsers_resumed.

Definition all_users_task : Task :=
  MkTask (OneQuery all_users_query) fetchUsers_resumed.

Definition detail_task (uid : string) : Task :=
  MkTask (PromiseAll (feedback_query uid) (items_query uid)) fetchData_resumed.

Inductive known_task : Task -> Prop :=
| known_latest : known_task latest_users_task
| known_users : known_task all_users_task
| known_detail : forall uid, known_task (detail_task uid).

(** The component state together with what the program does to its
    environment: lines written by [console.error], queries sent to the remote
    service (in order), async functions suspended at an [await], and the
    reasons of promises that were rejected with nobody listening. *)
Record World : Type := mkWorld {
  state : State;
  console : list (list LogArg);
  network : list Query;
  tasks : list Task;
  unhandled : list Thrown
}.

Definition initial_world : World :=
  {| state := initial_state; console := []; network := []; tasks := [];
     unhandled := [] |}.

Definition perform (a : Action) (w : World) : World :=
  match a with
  | console_error args =>
      {| state := state w; console := console w ++ [args]; network := network w;
         tasks := tasks w; unhandled := unhandled w |}
  | _ =>
      {| state := apply_setter a (state w); console := console w;
         network := network w; tasks := tasks w; unhandled := unhandled w |}
  end.

(** Run an async function until it returns, throws or reaches an [await]; at
    an [await] its queries are sent and the function is parked. *)
Fixpoint run (p : Prog unit) (w : World) : World :=
  match p with
  | Ret _ => w
  | Throw t =>
      {| state := state w; console := console w; network := network w;
         tasks := tasks w; unhandled := unhandled w ++ [t] |}
  | Do a k => run k (perform a w)
  | Await r k =>
      {| state := state w; console := console w;
         network := network w ++ queries_of r;
         tasks := tasks w ++ [MkTask r k]; unhandled := unhandled w |}
  end.

(** How the awaited promises settle is the environment's choice: an answer
    for every request. *)
Definition Answer : Type := forall R, Request R -> Settled R.

Definition answer_with (u : Settled (Response User))
    (d : Settled (Response Feedback * Response StoredItem)) : Answer :=
  fun R r =>
    match r in Request R return Settled R with
    | OneQuery _ => u
    | PromiseAll _ _ => d
    end.

(** Resume a parked function with the settlement of its promise. *)
Definition resume (t : Task) (ans : Answer) (w : World) : World :=
  match t with MkTask r k => run (k (ans _ r)) w end.

Definition option_string_eqb (a b : option string) : bool :=
  match a, b with
  | Some x, Some y => String.eqb x y
  | None, None => true
  | _, _ => false
  end.

(** [useEffect(..., [selectedEmail, users])]: the effect runs again after a
    render in which one of the two dependencies differs by [Object.is]. *)
Definition deps_changed (old new : State) : bool :=
  negb (option_string_eqb (selectedEmail old) (selectedEmail new))
  || negb (Nat.eqb (users_ref old) (users_ref new)).

(** The body of the second effect: [fetchData()] on the rendered state. *)
Definition effect_fetchData (w : World) : World :=
  run (fetchData (selectedEmail (state w)) (users (state w))) w.

Definition rerender (old : State) (w : World) : World :=
  if deps_changed old (state w) then effect_fetchData w else w.

(** First render: the first effect calls [fetchLatestUsers()] and
    [fetchUsers()], the second calls [fetchData()]. *)
Definition mount : World :=
  effect_fetchData (run fetchUsers (run fetchLatestUsers initial_world)).

(** [onChange={(e) => setSelectedEmail(e.target.value)}] *)
Definition onChange (value : string) (w : World) : World :=
  rerender (state w) (run (act (setSelectedEmail (Some value))) w).

Definition with_tasks (l : list Task) (w : World) : World :=
  {| state := state w; console := console w; network := network w;
     tasks := l; unhandled := unhandled w |}.

(** The promise of the parked function [t] settles. *)
Definition settle (pre : list Task) (t : Task) (post : list Task)
    (ans : Answer) (w : World) : World :=
  rerender (state w) (resume t ans (with_tasks (pre ++ post) w)).

Inductive step : World -> World -> Prop :=
| step_change : forall w value, step w (onChange value w)
| step_settle : forall w pre t post ans,
    tasks w = pre ++ t :: post ->
    step w (settle pre t post ans w).

Inductive reachable : World -> Prop :=
| reachable_mount : reachable mount
| reachable_step : forall w w', reachable w -> step w w' -> reachable w'.

(** The invariant of the event loop: every parked function is one of the
    three this program parks, and the loading flag is clear whenever no detail
    fetch is parked. *)
Definition loading_inv (w : World) : Prop :=
  Forall known_task (tasks w) /\
  (existsb is_detail (tasks w) = false -> loading (state w) = false).

(** ** The JSX of [App] *)

(** [{latestUsers.map((u) => <div key={u.user_id}>...</div>)}]; the date is
    [u.created_at ? new Date(u.created_at).toLocaleString() : <em>Unknown date</em>]. *)
Definition latest_user_card (u : User) : node :=
  Elem "div" [("key", user_id u)]
    [Elem "div" [] [Text (email u)];
     Elem "div" []
       [match created_at u with
        | val d => if truthy d then Text (Date_toLocaleString d) else em "Unknown date"
        | undefined | null => em "Unknown date"
        end]].

Definition latest_users_strip (latestUsers : list User) : node :=
  jsx_and (Nat.ltb 0 (List.length latestUsers))
    (Elem "div" []
       [Elem "h3" [] [Text "🧑‍💻 Latest Users"];
        Elem "div" [] [Arr (map latest_user_card latestUsers)]]).

(** [<option key={user.user_id} value={user.email}>{user.email}</option>] *)
Definition user_option (user : User) : node :=
  Elem "option" [("key", user_id user); ("value", email user)] [Text (email user)].

Definition placeholder_option : node :=
  Elem "option" [("value", "")] [Text "-- Select a user --"].

(** The children of [<select>] as written: the placeholder, then the array
    [users.map(...)]. *)
Definition select_children (users : list User) : list node :=
  [placeholder_option; Arr (map user_option users)].

Definition email_select (selectedEmail : option string) (users : list User) : node :=
  Elem "select" [("id", "email"); ("value", or_empty_string selectedEmail)]
    (select_children users).

(** The [<option>] elements the selector shows. *)
Definition select_options (users : list User) : list node :=
  flatten_children (select_children users).

(** [{item.notes || <em>–</em>}] *)
Definition notes_value (it : StoredItem) : node :=
  jsx_or (notes it) (em "–").

Definition item_row (it : StoredItem) : node :=
  Elem "tr" [("key", it_id it)]
    [Elem "td" [] [Text (item_name it)];
     Elem "td" [] [Text (it_location it)];
     Elem "td" [] [notes_value it]].

Definition items_table (items : list StoredItem) : node :=
  jsx_and (Nat.ltb 0 (List.length items))
    (Elem "div" []
       [Elem "h3" [] [Text "📦 Saved Items"];
        Elem "table" []
          [Elem "thead" []
             [Elem "tr" []
                [Elem "th" [] [Text "Item"];
                 Elem "th" [] [Text "Location"];
                 Elem "th" [] [Text "Notes"]]];
           Elem "tbody" [] [Arr (map item_row items)]]]).

(** [{f.transcript || <em>None</em>}] *)
Definition transcript_value (f : Feedback) : node :=
  jsx_or (transcript f) (em "None").

(** [{f.confidence_score ?? <em>n/a</em>}] *)
Definition confidence_value (f : Feedback) : node :=
  jsx_coalesce (confidence_score f) (em "n/a").

(** [{f.was_correct ? '✅ Yes' : '❌ No'}] *)
Definition was_correct_value (f : Feedback) : node :=
  jsx_cond (was_correct f) "✅ Yes" "❌ No".

(** [{x && <div><strong>label</strong> {x}</div>}] *)
Definition optional_line (label : string) (x : nullable string) : node :=
  jsx_and x (Elem "div" [] [strong label; Text " "; child x]).

Definition feedback_entry (f : Feedback) : node :=
  Elem "div" [("key", fb_id f)]
    [Elem "div" [] [Text (Date_toLocaleString (fb_created_at f))];
     Elem "div" [] [strong "Transcript:"; Text " "; transcript_value f];
     Elem "div" [] [strong "Intent:"; Text " "; child (intent f)];
     Elem "div" [] [strong "Action Type:"; Text " "; child (action_type f)];
     Elem "div" [] [strong "Item:"; Text " "; child (item f)];
     Elem "div" [] [strong "Location:"; Text " "; jsx_or (location f) (em "Not provided")];
     Elem "div" [] [strong "Confidence:"; Text " "; confidence_value f];
     Elem "div" [] [strong "Was Correct:"; Text " "; was_correct_value f];
     optional_line "Corrected Item:" (corrected_item f);
     optional_line "Corrected Location:" (corrected_location f);
     optional_line "Corrected Command:" (corrected_command f);
     optional_line "Note:" (note f);
     jsx_and (audio_url f)
       (Elem "div" []
          [Elem "audio" [("controls", "true"); ("src", string_of (audio_url f))] []])].

Definition feedback_list (feedback : list Feedback) : node :=
  Elem "div" [] [Arr (map feedback_entry feedback)].

(** What [App] returns for a given state. *)
Definition App (s : State) : node :=
  Elem "div" []
    [latest_users_strip (latestUsers s);
     Elem "h2" [] [Text "Transcript Feedback Viewer"];
     Elem "label" [("htmlFor", "email")] [Text "Filter by user email:"];
     email_select (selectedEmail s) (users s);
     jsx_and (loading s) (Elem "p" [] [Text "Loading data..."]);
     jsx_and (error s) (Elem "p" [] [child (error s)]);
     items_table (items s);
     feedback_list (feedback s)].

(** ** A sample session *)

Definition sample_feedback : Feedback :=
  {| fb_id := "f-1"; fb_created_at := "2024-05-01T10:00:00Z"; fb_user_id := "u-1";
     transcript := val "put the keys in the drawer"; intent := val "store";
     item := val "keys"; location := val "drawer"; confidence_score := null;
     action_type := val "store"; was_correct := null; corrected_item := null;
     corrected_location := null; corrected_command := null; note := val "";
     audio_url := undefined |}.

Definition sample_item : StoredItem :=
  {| it_id := "i-1"; item_name := "keys"; it_location := "drawer";
     notes := Some ""; it_created_at := "2024-05-01T10:00:01Z" |}.

Definition users_arrive : Answer :=
  answer_with (Fulfilled {| res_data := Some [alice; bob]; res_error := None |})
              (Rejected ThrownNull).

Definition detail_arrives : Answer :=
  answer_with (Rejected ThrownNull)
    (Fulfilled ({| res_data := Some [sample_feedback]; res_error := None |},
                {| res_data := Some [sample_item]; res_error := None |})).

Definition feedback_fails : Answer :=
  answer_with (Rejected ThrownNull)
    (Fulfilled ({| res_data := None; res_error := Some permission_denied |},
                {| res_data := Some []; res_error := None |})).

Definition latest_fails : Answer :=
  answer_with (Fulfilled {| res_data := None; res_error := Some permission_denied |})
              (Rejected ThrownNull).

(** Mount; the users list arrives; alice is selected; her records arrive;
    bob is selected. *)
Definition users_loaded : World :=
  settle [latest_users_task] all_users_task [] users_arrive mount.

Definition alice_selected : World := onChange "alice@example.com" users_loaded.

Definition showing_alice : World :=
  settle [latest_users_task] (detail_task "u-1") [] detail_arrives alice_selected.

Definition bob_selected : World := onChange "bob@example.com" showing_alice.


(** More settlements for the sample session. *)
Definition quota_exceeded : PostgrestError :=
  {| pg_message := "quota exceeded"; pg_code := "53400" |}.

Definition both_fail : Answer :=
  answer_with (Rejected ThrownNull)
    (Fulfilled ({| res_data := None; res_error := Some permission_denied |},
                {| res_data := None; res_error := Some quota_exceeded |})).

Definition promise_rejects : Answer :=
  answer_with (Rejected (Rejection "Failed to fetch"))
              (Rejected (Rejection "Failed to fetch")).

Definition users_fail : Answer :=
  answer_with (Fulfilled {| res_data := None; res_error := Some permission_denied |})
              (Rejected ThrownNull).

(** ** Rejection of an async function *)

(** [escapes p t]: on some settlement of its promises, [p] ends by throwing
    [t] out of the function, so that the promise the async function returned
    is rejected with [t]. *)
Fixpoint escapes {A} (p : Prog A) (t : Thrown) : Prop :=
  match p with
  | Ret _ => False
  | Throw t' => t' = t
  | Do _ k => escapes k t
  | Await _ k => exists s, escapes (k s) t
  end.


(** ** What has been sent *)

Definition option_eqb {A} (eqb : A -> A -> bool) (a b : option A) : bool :=
  match a, b with
  | Some x, Some y => eqb x y
  | None, None => true
  | _, _ => false
  end.

Definition Query_eqb (a b : Query) : bool :=
  String.eqb (q_from a) (q_from b)
  && String.eqb (q_select a) (q_select b)
  && option_eqb (fun x y => String.eqb (fst x) (fst y) && String.eqb (snd x) (snd y))
       (q_eq a) (q_eq b)
  && String.eqb (fst (q_order a)) (fst (q_order b))
  && Bool.eqb (snd (q_order a)) (snd (q_order b))
  && option_eqb Nat.eqb (q_limit a) (q_limit b).

(** The parked function waits for the all-users query. *)
Definition awaits_all_users (t : Task) : bool :=
  match t with
  | MkTask (OneQuery q) _ => Query_eqb q all_users_query
  | MkTask (PromiseAll _ _) _ => false
  end.

(** The queries of the detail fetches for the users with ids [uids], in
    order. *)
Definition detail_queries (uids : list string) : list Query :=
  flat_map (fun uid => [feedback_query uid; items_query uid]) uids.

(** Everything sent so far: the two list queries of the first render, then
    pairs of detail queries, each pair for the id of a loaded user. *)
Definition sent_so_far (w : World) (uids : list string) : Prop :=
  network w = [latest_users_query; all_users_query] ++ detail_queries uids /\
  Forall (fun uid => In uid (map user_id (users (state w)))) uids.

Definition history_inv (w : World) : Prop :=
  Forall known_task (tasks w) /\
  (exists uids, sent_so_far w uids) /\
  (filter awaits_all_users (tasks w) <> [] -> users (state w) = []) /\
  List.length (filter awaits_all_users (tasks w)) <= 1.

(** The messages the page can show. *)
Definition known_message (e : option string) : Prop :=
  e = None \/ e = Some "Failed to load users" \/ e = Some "Failed to load data".


(** ** The text of the page *)

(** A prop of an element. *)
Fixpoint lookup_prop (name : string) (props : list (string * string)) : option string :=
  match props with
  | [] => None
  | (k, v) :: rest => if String.eqb k name then Some v else lookup_prop name rest
  end.

Definition get_prop (name : string) (n : node) : option string :=
  match n with
  | Elem _ props _ => lookup_prop name props
  | _ => None
  end.

Definition join (l : list string) : string := fold_right String.append "" l.

(** What a reader sees for a field with a placeholder, and for a line that
    is only there when its field is set. *)
Definition shown_or (x : nullable string) (placeholder : string) : string :=
  if truthy x then string_of x else placeholder.

Definition labelled (label : string) (x : nullable string) : string :=
  if truthy x then label ++ " " ++ string_of x else "".

Definition item_text (it : StoredItem) : string :=
  item_name it ++ it_location it ++
  match notes it with
  | Some (String c s) => String c s
  | Some EmptyString | None => "–"
  end.

Definition user_card_text (u : User) : string :=
  email u ++ match created_at u with
             | val (String c s) => Date_toLocaleString (String c s)
             | _ => "Unknown date"
             end.

Definition feedback_text (f : Feedback) : string :=
  Date_toLocaleString (fb_created_at f) ++
  "Transcript: " ++ shown_or (transcript f) "None" ++
  "Intent: " ++ string_of (intent f) ++
  "Action Type: " ++ string_of (action_type f) ++
  "Item: " ++ string_of (item f) ++
  "Location: " ++ shown_or (location f) "Not provided" ++
  "Confidence: " ++ match confidence_score f with
                    | val n => Number_toString n
                    | undefined | null => "n/a"
                    end ++
  "Was Correct: " ++ match was_correct f with
                     | val true => "✅ Yes"
                     | _ => "❌ No"
                     end ++
  labelled "Corrected Item:" (corrected_item f) ++
  labelled "Corrected Location:" (corrected_location f) ++
  labelled "Corrected Command:" (corrected_command f) ++
  labelled "Note:" (note f).


(** Bob has nothing stored; and a selection made before the users list has
    arrived. *)
Definition nothing_stored : Answer :=
  answer_with (Rejected ThrownNull)
    (Fulfilled ({| res_data := Some []; res_error := None |},
                {| res_data := None; res_error := None |})).

Definition early_selection : World := onChange "bob@example.com" mount.

(** ** Where a node sits in the page *)

Definition children (n : node) : list node :=
  match n with
  | Elem _ _ cs => cs
  | Arr l => l
  | Nothing | Text _ | Num _ => []
  end.

(** The children React mounts under a node. *)
Definition rendered_children (n : node) : list node := flatten_children (children n).

(** [within n page]: the node [n] is [page] or sits somewhere below it. *)
Inductive within : node -> node -> Prop :=
| within_self : forall n, within n n
| within_elem : forall n c tag props cs,
    In c cs -> within n c -> within n (Elem tag props cs)
| within_arr : forall n c l,
    In c l -> within n c -> within n (Arr l).

(** The record [f] with another confidence score. *)
Definition with_confidence (c : nullable number) (f : Feedback) : Feedback :=
  {| fb_id := fb_id f; fb_created_at := fb_created_at f; fb_user_id := fb_user_id f;
     transcript := transcript f; intent := intent f; item := item f;
     location := location f; confidence_score := c; action_type := action_type f;
     was_correct := was_correct f; corrected_item := corrected_item f;
     corrected_location := corrected_location f;
     corrected_command := corrected_command f; note := note f;
     audio_url := audio_url f |}.

(** * Properties *)

Unset Implicit Arguments.

(** ** Rendering *)

Lemma flatten_Arr_cons (x : node) (l : list node) :
  flatten (Arr (x :: l)) = flatten x ++ flatten (Arr l).
Proof. reflexivity. Qed.

Lemma flatten_user_options (us : list User) :
  flatten (Arr (map user_option us)) = map user_option us.
Proof.
  induction us as [|u us IH]; [reflexivity|].
  cbn [map]. rewrite flatten_Arr_cons, IH. reflexivity.
Qed.

Lemma within_trans (a b c : node) : within a b -> within b c -> within a c.
Proof.
  intros Hab Hbc. induction Hbc as [n|n c' tag props cs Hin _ IH|n c' l Hin _ IH].
  - exact Hab.
  - apply within_elem with (c := c'); auto.
  - apply within_arr with (c := c'); auto.
Qed.

Lemma within_child (c : node) (tag : string) (props : list (string * string))
    (cs : list node) :
  In c cs -> within c (Elem tag props cs).
Proof. intros H. apply within_elem with (c := c); [exact H | apply within_self]. Qed.

Lemma within_mapped {A : Type} (f : A -> node) (a : A) (l : list A) :
  In a l -> within (f a) (Arr (map f l)).
Proof.
  intros H. apply within_arr with (c := f a); [now apply in_map | apply within_self].
Qed.

(** The selector, the items table and the feedback list are children of the
    page. *)
Lemma App_parts (s : State) :
  within (email_select (selectedEmail s) (users s)) (App s) /\
  within (items_table (items s)) (App s) /\
  within (feedback_list (feedback s)) (App s).
Proof.
  unfold App. repeat split; apply within_child; cbn; auto 10.
Qed.

(** Every record of [feedback] has its entry in the page. *)
Lemma feedback_entry_in_page (s : State) (f : Feedback) :
  In f (feedback s) -> within (feedback_entry f) (App s).
Proof.
  intros H. apply within_trans with (b := feedback_list (feedback s)).
  - unfold feedback_list.
    apply within_elem with (c := Arr (map feedback_entry (feedback s))); [now left|].
    now apply within_mapped.
  - apply App_parts.
Qed.

(** Every item of [items] has its row in the page. *)
Lemma item_row_in_page (s : State) (it : StoredItem) :
  In it (items s) -> within (item_row it) (App s).
Proof.
  intros H. apply within_trans with (b := items_table (items s)); [|apply App_parts].
  destruct (items s) as [|x l] eqn:E; [destruct H|].
  unfold items_table, jsx_and.
  change (truthy (Nat.ltb 0 (List.length (x :: l)))) with true.
  unfold child, Child_node.
  apply within_elem with (c := Elem "table" []
           [Elem "thead" []
              [Elem "tr" []
                 [Elem "th" [] [Text "Item"];
                  Elem "th" [] [Text "Location"];
                  Elem "th" [] [Text "Notes"]]];
            Elem "tbody" [] [Arr (map item_row (x :: l))]]); [right; now left|].
  apply within_elem with (c := Elem "tbody" [] [Arr (map item_row (x :: l))]);
    [right; now left|].
  apply within_elem with (c := Arr (map item_row (x :: l))); [now left|].
  now apply within_mapped.
Qed.

(** The lines of a feedback entry that carry a label. *)
Lemma feedback_entry_lines (f : Feedback) :
  within (Elem "div" [] [strong "Transcript:"; Text " "; transcript_value f])
    (feedback_entry f) /\
  within (Elem "div" [] [strong "Confidence:"; Text " "; confidence_value f])
    (feedback_entry f) /\
  within (Elem "div" [] [strong "Was Correct:"; Text " "; was_correct_value f])
    (feedback_entry f).
Proof.
  unfold feedback_entry. repeat split; apply within_child; cbn; auto 15.
Qed.

(** What the selector mounts: the placeholder option, then one option per
    user. *)
Lemma rendered_children_select (sel : option string) (us : list User) :
  rendered_children (email_select sel us) = placeholder_option :: map user_option us.
Proof.
  unfold rendered_children, email_select, children, flatten_children, select_children.
  rewrite !flatten_Arr_cons, flatten_user_options. cbn. now rewrite app_nil_r.
Qed.

(** C8: the [<select>] of the page mounts the placeholder option, whose
    value is the empty string, followed by one option per loaded user; so the
    number of its options is the length of the users list plus one. *)
Theorem select_options_length (s : State) (sel : option string) (us : list User) :
  within (email_select (selectedEmail s) (users s)) (App s) /\
  rendered_children (email_select sel us) = placeholder_option :: map user_option us /\
  List.length (rendered_children (email_select sel us)) = List.length us + 1 /\
  List.length (rendered_children (email_select (selectedEmail s) (users s))) =
    List.length (users s) + 1 /\
  select_options us = rendered_children (email_select sel us) /\
  placeholder_option = Elem "option" [("value", "")] [Text "-- Select a user --"] /\
  get_prop "value" placeholder_option = Some "".
Proof.
  assert (L : forall sel' us',
             List.length (rendered_children (email_select sel' us')) =
             List.length us' + 1).
  { intros sel' us'. rewrite rendered_children_select. cbn [List.length].
    rewrite length_map. lia. }
  split; [apply App_parts|]. split; [apply rendered_children_select|].
  split; [apply L|]. split; [apply L|]. repeat split.
Qed.

(** C5: every record in [feedback] has its entry in the page, and the
    entry has the line [Was Correct:] followed by ['✅ Yes'] exactly when
    [was_correct] is [true]; for [false], [null] and [undefined] the falsy
    branch is taken and the line reads ['❌ No']. *)
Theorem was_correct_falsy_branch (s : State) (f : Feedback) :
  In f (feedback s) ->
  within (feedback_entry f) (App s) /\
  ((was_correct f = val true /\
    was_correct_value f = Text "✅ Yes" /\
    within (Elem "div" [] [strong "Was Correct:"; Text " "; Text "✅ Yes"])
      (feedback_entry f)) \/
   ((was_correct f = val false \/ was_correct f = null \/ was_correct f = undefined) /\
    was_correct_value f = Text "❌ No" /\
    within (Elem "div" [] [strong "Was Correct:"; Text " "; Text "❌ No"])
      (feedback_entry f))).
Proof.
  intros Hin. split; [now apply feedback_entry_in_page|].
  destruct (feedback_entry_lines f) as [_ [_ L]].
  assert (V : (was_correct f = val true /\ was_correct_value f = Text "✅ Yes") \/
              ((was_correct f = val false \/ was_correct f = null \/
                was_correct f = undefined) /\
               was_correct_value f = Text "❌ No")).
  { unfold was_correct_value, jsx_cond.
    destruct (was_correct f) as [| |[|]]; cbn; intuition congruence. }
  destruct V as [[H E]|[H E]]; rewrite E in L; [left | right]; auto.
Qed.

(** C6: every item in [items] has its row in the page, and the third cell
    of the row shows the en-dash placeholder when [notes] is [null] and when
    it is the empty string; any other string is shown as it is. *)
Theorem notes_placeholder (s : State) (it : StoredItem) :
  In it (items s) ->
  within (item_row it) (App s) /\
  (((notes it = None \/ notes it = Some "") /\
    notes_value it = em "–" /\ textContent (notes_value it) = "–" /\
    item_row it =
      Elem "tr" [("key", it_id it)]
        [Elem "td" [] [Text (item_name it)];
         Elem "td" [] [Text (it_location it)];
         Elem "td" [] [em "–"]]) \/
   (exists t, notes it = Some t /\ t <> "" /\
    notes_value it = Text t /\ textContent (notes_value it) = t /\
    item_row it =
      Elem "tr" [("key", it_id it)]
        [Elem "td" [] [Text (item_name it)];
         Elem "td" [] [Text (it_location it)];
         Elem "td" [] [Text t]])).
Proof.
  intros Hin. split; [now apply item_row_in_page|].
  unfold item_row, notes_value, jsx_or.
  destruct (notes it) as [[|c t]|]; cbn.
  - left. auto 10.
  - right. exists (String c t). repeat split; congruence.
  - left. auto 10.
Qed.

(** ** The shape of the three async functions *)

Lemma truthy_nonempty (e : string) : truthy e = true <-> e <> "".
Proof. destruct e; cbn; split; congruence. Qed.

Lemma fetchLatestUsers_suspends :
  fetchLatestUsers = Await (OneQuery latest_users_query) fetchLatestUsers_resumed.
Proof. reflexivity. Qed.

Lemma fetchUsers_suspends :
  fetchUsers = Await (OneQuery all_users_query) fetchUsers_resumed.
Proof. reflexivity. Qed.

(** [if (!selectedEmail) return;] *)
Lemma fetchData_returns (sel : option string) (us : list User) :
  truthy sel = false -> fetchData sel us = Ret tt.
Proof. intros H. unfold fetchData. now rewrite H. Qed.

Lemma fetchData_suspends (e : string) (us : list User) (u : User) :
  truthy e = true ->
  find (email_is (Some e)) us = Some u ->
  fetchData (Some e) us =
  Do (setLoading true) (Do (setError None)
    (Await (PromiseAll (feedback_query (user_id u)) (items_query (user_id u)))
       fetchData_resumed)).
Proof.
  intros He Hf. unfold fetchData.
  change (truthy (Some e)) with (truthy e). rewrite He, Hf. reflexivity.
Qed.

Lemma fetchData_user_not_found (e : string) (us : list User) :
  truthy e = true ->
  find (email_is (Some e)) us = None ->
  fetchData (Some e) us =
  Do (setLoading true) (Do (setError None)
    (Do (setError (Some "Failed to load data"))
       (Do (console_error [LogThrown (JsError "User not found")])
          (Do (setLoading false) (Ret tt))))).
Proof.
  intros He Hf. unfold fetchData.
  change (truthy (Some e)) with (truthy e). rewrite He, Hf. reflexivity.
Qed.

(** [users.find((u) => u.email === selectedEmail)] compares whole strings,
    character by character. *)
Lemma email_is_spec (e : string) (u : User) :
  email_is (Some e) u = true <-> email u = e.
Proof. apply String.eqb_eq. Qed.

Lemma find_email_none (e : string) (us : list User) :
  (forall u, In u us -> email u <> e) <-> find (email_is (Some e)) us = None.
Proof.
  split.
  - intros H. destruct (find (email_is (Some e)) us) as [u|] eqn:F; [|reflexivity].
    apply find_some in F. destruct F as [Hin Heq].
    apply email_is_spec in Heq. now apply H in Hin.
  - intros F u Hin Heq.
    apply (find_none _ _ F) in Hin. apply email_is_spec in Heq. congruence.
Qed.

Lemma find_email_some (e : string) (us : list User) :
  (exists u, In u us /\ email u = e) ->
  exists u, find (email_is (Some e)) us = Some u /\ In u us /\ email u = e.
Proof.
  intros [u0 [Hin Heq]].
  destruct (find (email_is (Some e)) us) as [u|] eqn:F.
  - exists u. apply find_some in F. destruct F as [Hu Hm].
    apply email_is_spec in Hm. auto.
  - apply (proj2 (find_email_none e us)) with (u := u0) in F; [|exact Hin].
    contradiction.
Qed.

(** The three outcomes of a resumed [fetchData]. *)
Lemma fetchData_resumed_rejected (t : Thrown) :
  fetchData_resumed (Rejected t) =
  Do (setError (Some "Failed to load data"))
    (Do (console_error [LogThrown t]) (Do (setLoading false) (Ret tt))).
Proof. reflexivity. Qed.

Lemma fetchData_resumed_failed (feedbackRes : Response Feedback)
    (itemsRes : Response StoredItem) (err : PostgrestError) :
  js_or (res_error feedbackRes) (res_error itemsRes) = Some err ->
  fetchData_resumed (Fulfilled (feedbackRes, itemsRes)) =
  Do (setError (Some "Failed to load data"))
    (Do (console_error [LogThrown (QueryFailed err)]) (Do (setLoading false) (Ret tt))).
Proof.
  unfold fetchData_resumed, fetchData_results, js_or. cbn [fst snd settled_value bind].
  destruct (res_error feedbackRes) as [e1|], (res_error itemsRes) as [e2|];
    cbn; intros H; inversion H; subst; reflexivity.
Qed.

Lemma fetchData_resumed_succeeded (feedbackRes : Response Feedback)
    (itemsRes : Response StoredItem) :
  res_error feedbackRes = None -> res_error itemsRes = None ->
  fetchData_resumed (Fulfilled (feedbackRes, itemsRes)) =
  Do (setFeedback (or_empty (res_data feedbackRes)))
    (Do (setItems (or_empty (res_data itemsRes))) (Do (setLoading false) (Ret tt))).
Proof.
  intros H1 H2. unfold fetchData_resumed, fetchData_results.
  cbn [fst snd settled_value bind]. rewrite H1, H2. reflexivity.
Qed.

(** ** Running the functions *)

Lemma option_string_eqb_refl (a : option string) : option_string_eqb a a = true.
Proof. destruct a; cbn; [apply String.eqb_refl | reflexivity]. Qed.

(** No dependency changed: the second effect does not run again. *)
Lemma rerender_same_deps (old : State) (w : World) :
  selectedEmail (state w) = selectedEmail old ->
  users_ref (state w) = users_ref old ->
  rerender old w = w.
Proof.
  intros H1 H2. unfold rerender, deps_changed.
  now rewrite H1, H2, option_string_eqb_refl, Nat.eqb_refl.
Qed.

(** A failed detail fetch, at whatever state the component has when the
    promise settles. *)
Lemma settle_detail_failed (w : World) (pre post : list Task) (uid : string)
    (ans : Answer) (t : Thrown) :
  fetchData_resumed (ans _ (PromiseAll (feedback_query uid) (items_query uid))) =
    Do (setError (Some "Failed to load data"))
      (Do (console_error [LogThrown t]) (Do (setLoading false) (Ret tt))) ->
  settle pre (detail_task uid) post ans w =
  {| state := apply_setter (setLoading false)
                (apply_setter (setError (Some "Failed to load data")) (state w));
     console := console w ++ [[LogThrown t]];
     network := network w;
     tasks := pre ++ post;
     unhandled := unhandled w |}.
Proof.
  intros H. unfold settle, detail_task, resume. rewrite H.
  cbn [run perform with_tasks state console network tasks unhandled].
  now apply rerender_same_deps.
Qed.

(** C1: a detail fetch parks on the [Promise.all] of its two queries; when
    one of the two results carries an error and the other does not, the
    [feedback] and [items] state keep the values they have at that moment, the
    error shown becomes ['Failed to load data'], and the query's error object
    is written to the console. *)
Theorem detail_fetch_all_or_nothing (w0 : World) (e : string) (us : list User) (u : User) :
  e <> "" ->
  find (email_is (Some e)) us = Some u ->
  let started := run (fetchData (Some e) us) w0 in
  tasks started = tasks w0 ++ [detail_task (user_id u)] /\
  forall (w : World) (pre post : list Task) (ans : Answer)
         (feedbackRes : Response Feedback) (itemsRes : Response StoredItem)
         (err : PostgrestError),
    tasks w = pre ++ detail_task (user_id u) :: post ->
    ans _ (PromiseAll (feedback_query (user_id u)) (items_query (user_id u))) =
      Fulfilled (feedbackRes, itemsRes) ->
    (res_error feedbackRes = Some err /\ res_error itemsRes = None) \/
    (res_error feedbackRes = None /\ res_error itemsRes = Some err) ->
    let w' := settle pre (detail_task (user_id u)) post ans w in
    feedback (state w') = feedback (state w) /\
    items (state w') = items (state w) /\
    error (state w') = Some "Failed to load data" /\
    console w' = console w ++ [[LogThrown (QueryFailed err)]].
Proof.
  intros He Hf started. apply truthy_nonempty in He. split.
  - subst started. now rewrite (fetchData_suspends e us u He Hf).
  - intros w pre post ans feedbackRes itemsRes err _ Hans Herr w'.
    subst w'. rewrite settle_detail_failed with (t := QueryFailed err).
    + cbn. auto.
    + rewrite Hans. apply fetchData_resumed_failed.
      unfold js_or. destruct Herr as [[H1 H2]|[H1 H2]]; now rewrite H1, H2.
Qed.

(** C3 (amended): selecting a non-empty email that equals no loaded user's
    email fails inside [fetchData] before any query is sent: the network log
    and the parked functions are as before, [feedback] and [items] keep their
    values, and the function ends normally with the loading flag cleared.  The
    exception ['User not found'] is caught: it is written to the console, and
    the error shown is the generic ['Failed to load data']. *)
Theorem user_not_found_is_local (w : World) (e : string) (us : list User) :
  e <> "" ->
  (forall u, In u us -> email u <> e) ->
  let w' := run (fetchData (Some e) us) w in
  network w' = network w /\
  tasks w' = tasks w /\
  feedback (state w') = feedback (state w) /\
  items (state w') = items (state w) /\
  loading (state w') = false /\
  unhandled w' = unhandled w /\
  console w' = console w ++ [[LogThrown (JsError "User not found")]] /\
  error (state w') = Some "Failed to load data".
Proof.
  intros He Hno w'. subst w'.
  apply truthy_nonempty in He. apply find_email_none in Hno.
  rewrite (fetchData_user_not_found e us He Hno). cbn. auto 10.
Qed.

(** C4 (amended): selecting a non-empty email that some loaded user has
    resolves one user, the first in the list with exactly that email, from
    the loaded list alone; the only queries sent are the feedback query and
    the items query, both filtered by [user_id] equal to that user's id. *)
Theorem selected_user_resolved (w : World) (e : string) (us : list User) :
  e <> "" ->
  (exists u, In u us /\ email u = e) ->
  exists u,
    find (email_is (Some e)) us = Some u /\ In u us /\ email u = e /\
    let w' := run (fetchData (Some e) us) w in
    network w' = network w ++ [feedback_query (user_id u); items_query (user_id u)] /\
    q_eq (feedback_query (user_id u)) = Some ("user_id", user_id u) /\
    q_eq (items_query (user_id u)) = Some ("user_id", user_id u).
Proof.
  intros He Hex. apply truthy_nonempty in He.
  destruct (find_email_some e us Hex) as [u [Hf [Hin Heq]]].
  exists u. repeat split; auto.
  rewrite (fetchData_suspends e us u He Hf). reflexivity.
Qed.

(** C7: [fetchLatestUsers] sends one query: [user_profiles], columns
    [user_id, email, created_at], newest [created_at] first, limit 10.  When
    the result carries an error, the whole component state (so the recent
    users and the error shown) stays as it is and the error is written to the
    console; a result without error whose rows respect the limit leaves at
    most 10 recent users. *)
Theorem latest_users_silent_failure (w0 : World) :
  let started := run fetchLatestUsers w0 in
  (network started = network w0 ++ [latest_users_query] /\
   tasks started = tasks w0 ++ [latest_users_task] /\
   state started = state w0) /\
  latest_users_query =
    {| q_from := "user_profiles"; q_select := "user_id, email, created_at";
       q_eq := None; q_order := ("created_at", false); q_limit := Some 10 |} /\
  (forall (w : World) (pre post : list Task) (ans : Answer)
          (rows : option (list User)) (err : PostgrestError),
     tasks w = pre ++ latest_users_task :: post ->
     ans _ (OneQuery latest_users_query) =
       Fulfilled {| res_data := rows; res_error := Some err |} ->
     let w' := settle pre latest_users_task post ans w in
     state w' = state w /\
     network w' = network w /\
     console w' = console w ++ [[LogStr "Failed to fetch latest users:"; LogPg err]]) /\
  (forall (w : World) (pre post : list Task) (ans : Answer)
          (rows : option (list User)),
     tasks w = pre ++ latest_users_task :: post ->
     ans _ (OneQuery latest_users_query) =
       Fulfilled {| res_data := rows; res_error := None |} ->
     List.length (or_empty rows) <= 10 ->
     let w' := settle pre latest_users_task post ans w in
     latestUsers (state w') = or_empty rows /\
     List.length (latestUsers (state w')) <= 10 /\
     console w' = console w).
Proof.
  intros started. split; [|split; [reflexivity|split]].
  - subst started. rewrite fetchLatestUsers_suspends. cbn. auto.
  - intros w pre post ans rows err _ Hans w'. subst w'.
    unfold settle, latest_users_task, resume. rewrite Hans.
    cbn [fetchLatestUsers_resumed settled_value bind fetchLatestUsers_result
         res_error act run perform with_tasks state console network tasks unhandled].
    rewrite rerender_same_deps by reflexivity. cbn. auto.
  - intros w pre post ans rows _ Hans Hlen w'. subst w'.
    unfold settle, latest_users_task, resume. rewrite Hans.
    cbn [fetchLatestUsers_resumed settled_value bind fetchLatestUsers_result
         res_error res_data act run perform with_tasks state console network
         tasks unhandled apply_setter].
    rewrite rerender_same_deps by reflexivity. cbn. auto.
Qed.

(** ** Cleared selection *)




(** ** The loading flag *)

(** What resuming a parked function does to the parked functions and to
    the loading flag: nothing new is parked, and only a detail fetch writes
    the flag, which it clears. *)
Lemma resume_known (t : Task) (ans : Answer) (w : World) :
  known_task t ->
  let w' := resume t ans w in
  tasks w' = tasks w /\
  selectedEmail (state w') = selectedEmail (state w) /\
  loading (state w') = (if is_detail t then false else loading (state w)) /\
  (is_detail t = true -> users_ref (state w') = users_ref (state w)).
Proof.
  intros K. destruct K as [| |uid]; cbn [resume latest_users_task all_users_task
                                          detail_task is_detail].
  - destruct (ans _ (OneQuery latest_users_query)) as [res|thr];
      [|cbn; intuition discriminate].
    unfold fetchLatestUsers_resumed, fetchLatestUsers_result. cbn [settled_value bind].
    destruct (res_error res); cbn; intuition discriminate.
  - destruct (ans _ (OneQuery all_users_query)) as [res|thr];
      [|cbn; intuition discriminate].
    unfold fetchUsers_resumed, fetchUsers_result. cbn [settled_value bind].
    destruct (res_error res); cbn; intuition discriminate.
  - destruct (ans _ (PromiseAll (feedback_query uid) (items_query uid)))
      as [[feedbackRes itemsRes]|thr]; [|cbn; auto].
    destruct (res_error feedbackRes) as [e1|] eqn:E1.
    + rewrite (fetchData_resumed_failed feedbackRes itemsRes e1);
        [cbn; auto | unfold js_or; now rewrite E1].
    + destruct (res_error itemsRes) as [e2|] eqn:E2.
      * rewrite (fetchData_resumed_failed feedbackRes itemsRes e2);
          [cbn; auto | unfold js_or; now rewrite E1, E2].
      * rewrite (fetchData_resumed_succeeded feedbackRes itemsRes E1 E2). cbn. auto.
Qed.

(** The three ways a call of [fetchData] can go up to its first [await]. *)
Lemma fetchData_outcome (sel : option string) (us : list User) (w : World) :
  let w' := run (fetchData sel us) w in
  (truthy sel = false /\ w' = w) \/
  (exists u, tasks w' = tasks w ++ [detail_task (user_id u)] /\
             loading (state w') = true) \/
  (tasks w' = tasks w /\ loading (state w') = false).
Proof.
  cbv zeta. destruct (truthy sel) eqn:T.
  - right. destruct sel as [e|]; [|discriminate]. change (truthy e = true) in T.
    destruct (find (email_is (Some e)) us) as [u|] eqn:F.
    + left. exists u. rewrite (fetchData_suspends e us u T F). cbn. auto.
    + right. rewrite (fetchData_user_not_found e us T F). cbn. auto.
  - left. now rewrite fetchData_returns.
Qed.

Lemma loading_inv_effect (w : World) : loading_inv w -> loading_inv (effect_fetchData w).
Proof.
  intros [K L]. unfold effect_fetchData.
  destruct (fetchData_outcome (selectedEmail (state w)) (users (state w)) w)
    as [[_ E]|[[u [Et El]]|[Et El]]].
  - rewrite E. now split.
  - split; rewrite Et.
    + apply Forall_app. split; [exact K|]. repeat constructor.
    + rewrite existsb_app. cbn. rewrite orb_true_r. discriminate.
  - split; [now rewrite Et | auto].
Qed.

Lemma loading_inv_rerender (old : State) (w : World) :
  loading_inv w -> loading_inv (rerender old w).
Proof.
  intros I. unfold rerender. destruct (deps_changed old (state w)); [|exact I].
  now apply loading_inv_effect.
Qed.

Lemma loading_inv_mount : loading_inv mount.
Proof.
  split; [|reflexivity]. cbn. repeat constructor.
Qed.

Lemma loading_inv_step (w w' : World) : loading_inv w -> step w w' -> loading_inv w'.
Proof.
  intros [K L] S. destruct S as [w value|w pre t post ans E].
  - apply loading_inv_rerender. split; [exact K | exact L].
  - apply loading_inv_rerender.
    rewrite E in K, L. apply Forall_app in K. destruct K as [Kpre K].
    inversion K as [|? ? Kt Kpost]; subst.
    destruct (resume_known t ans (with_tasks (pre ++ post) w) Kt) as [Et [_ [El _]]].
    split.
    + rewrite Et. cbn. apply Forall_app. now split.
    + rewrite Et, El. cbn [with_tasks tasks state]. intros D.
      destruct (is_detail t) eqn:Dt; [reflexivity|].
      apply L. rewrite existsb_app in D |- *. cbn [existsb]. now rewrite Dt.
Qed.

Lemma loading_inv_reachable (w : World) : reachable w -> loading_inv w.
Proof.
  induction 1 as [|w w' _ IH S]; [apply loading_inv_mount|].
  exact (loading_inv_step w w' IH S).
Qed.

Lemma settle_detail_clears (w : World) (pre post : list Task) (uid : string)
    (ans : Answer) :
  let w' := settle pre (detail_task uid) post ans w in
  loading (state w') = false /\ tasks w' = pre ++ post.
Proof.
  cbv zeta. unfold settle.
  destruct (resume_known (detail_task uid) ans (with_tasks (pre ++ post) w)
              (known_detail uid)) as [Et [Es [El Er]]].
  rewrite rerender_same_deps; [split; [exact El | exact Et] | exact Es |].
  now apply Er.
Qed.

(** C2: a detail fetch for a non-empty selection begins by setting the
    loading flag.  If the user is found the flag is set while the function is
    parked on its queries, and whichever way the promise settles (both results
    fine, an error in a result, a rejection) the flag is clear afterwards; if
    the user is not found the function ends at once with the flag clear.  In
    every state the component can reach, the flag is clear unless a detail
    fetch is parked. *)
Theorem loading_flag_lifecycle (e : string) (us : list User) :
  e <> "" ->
  (exists k, fetchData (Some e) us = Do (setLoading true) k) /\
  (forall w u, find (email_is (Some e)) us = Some u ->
     let w' := run (fetchData (Some e) us) w in
     loading (state w') = true /\
     tasks w' = tasks w ++ [detail_task (user_id u)]) /\
  (forall w, find (email_is (Some e)) us = None ->
     let w' := run (fetchData (Some e) us) w in
     loading (state w') = false /\ tasks w' = tasks w) /\
  (forall w pre post uid ans,
     tasks w = pre ++ detail_task uid :: post ->
     let w' := settle pre (detail_task uid) post ans w in
     loading (state w') = false /\ tasks w' = pre ++ post) /\
  (forall w, reachable w ->
     existsb is_detail (tasks w) = false -> loading (state w) = false).
Proof.
  intros He. apply truthy_nonempty in He.
  split; [|split; [|split; [|split]]].
  - unfold fetchData. change (truthy (Some e)) with (truthy e). rewrite He.
    cbn. eauto.
  - intros w u Hf. rewrite (fetchData_suspends e us u He Hf). split; reflexivity.
  - intros w Hf. rewrite (fetchData_user_not_found e us He Hf). split; reflexivity.
  - intros w pre post uid ans _. apply settle_detail_clears.
  - intros w R D. now apply loading_inv_reachable.
Qed.

(** The sample session is a run of the event loop. *)
Lemma sample_session_reachable :
  reachable users_loaded /\ reachable alice_selected /\
  reachable showing_alice /\ reachable bob_selected.
Proof.
  assert (R1 : reachable users_loaded).
  { apply reachable_step with (w := mount); [apply reachable_mount|].
    now apply step_settle. }
  assert (R2 : reachable alice_selected).
  { apply reachable_step with (w := users_loaded); [exact R1 | apply step_change]. }
  assert (R3 : reachable showing_alice).
  { apply reachable_step with (w := alice_selected); [exact R2|]. now apply step_settle. }
  repeat split; auto.
  apply reachable_step with (w := showing_alice); [exact R3 | apply step_change].
Qed.


(** ** The other outcomes of a detail fetch *)

(** X1: when both results come back without error, [feedback] and [items]
    are replaced by the rows received ([[]] when [data] is [null]), the
    loading flag is cleared, and nothing else changes: the error shown, the
    selection and the users list are those of the moment the promise settles,
    and nothing is logged. *)
Theorem detail_fetch_success (w : World) (pre post : list Task) (uid : string)
    (ans : Answer) (feedbackRes : Response Feedback) (itemsRes : Response StoredItem) :
  tasks w = pre ++ detail_task uid :: post ->
  ans _ (PromiseAll (feedback_query uid) (items_query uid)) =
    Fulfilled (feedbackRes, itemsRes) ->
  res_error feedbackRes = None ->
  res_error itemsRes = None ->
  let w' := settle pre (detail_task uid) post ans w in
  feedback (state w') = or_empty (res_data feedbackRes) /\
  items (state w') = or_empty (res_data itemsRes) /\
  loading (state w') = false /\
  error (state w') = error (state w) /\
  selectedEmail (state w') = selectedEmail (state w) /\
  users (state w') = users (state w) /\
  latestUsers (state w') = latestUsers (state w) /\
  console w' = console w /\
  network w' = network w /\
  unhandled w' = unhandled w /\
  tasks w' = pre ++ post.
Proof.
  intros _ Hans H1 H2 w'. subst w'. unfold settle, detail_task, resume.
  rewrite Hans, (fetchData_resumed_succeeded feedbackRes itemsRes H1 H2).
  cbn [run perform with_tasks state console network tasks unhandled].
  rewrite rerender_same_deps by reflexivity. cbn. auto 12.
Qed.

(** X2: when both results carry an error, the one that is thrown and logged
    is the feedback query's ([feedbackRes.error || itemsRes.error]); the items
    query's error appears nowhere. *)
Theorem detail_fetch_both_fail (w : World) (pre post : list Task) (uid : string)
    (ans : Answer) (feedbackRes : Response Feedback) (itemsRes : Response StoredItem)
    (e1 e2 : PostgrestError) :
  tasks w = pre ++ detail_task uid :: post ->
  ans _ (PromiseAll (feedback_query uid) (items_query uid)) =
    Fulfilled (feedbackRes, itemsRes) ->
  res_error feedbackRes = Some e1 ->
  res_error itemsRes = Some e2 ->
  let w' := settle pre (detail_task uid) post ans w in
  console w' = console w ++ [[LogThrown (QueryFailed e1)]] /\
  error (state w') = Some "Failed to load data" /\
  feedback (state w') = feedback (state w) /\
  items (state w') = items (state w) /\
  loading (state w') = false /\
  unhandled w' = unhandled w.
Proof.
  intros _ Hans H1 H2 w'. subst w'.
  rewrite settle_detail_failed with (t := QueryFailed e1).
  - cbn. auto 10.
  - rewrite Hans. apply fetchData_resumed_failed. unfold js_or. now rewrite H1.
Qed.

(** X3: when the [Promise.all] itself is rejected, the [catch] block treats
    the reason like a query error: generic message, reason logged, lists kept,
    flag cleared; the rejection does not leave [fetchData]. *)
Theorem detail_fetch_rejected (w : World) (pre post : list Task) (uid : string)
    (ans : Answer) (reason : Thrown) :
  tasks w = pre ++ detail_task uid :: post ->
  ans _ (PromiseAll (feedback_query uid) (items_query uid)) = Rejected reason ->
  let w' := settle pre (detail_task uid) post ans w in
  console w' = console w ++ [[LogThrown reason]] /\
  error (state w') = Some "Failed to load data" /\
  feedback (state w') = feedback (state w) /\
  items (state w') = items (state w) /\
  loading (state w') = false /\
  unhandled w' = unhandled w /\
  tasks w' = pre ++ post.
Proof.
  intros _ Hans w'. subst w'.
  rewrite settle_detail_failed with (t := reason).
  - cbn. auto 10.
  - now rewrite Hans.
Qed.

(** ** Which functions can reject *)

Lemma escapes_bind {A B : Type} (p : Prog A) (f : A -> Prog B) (t : Thrown) :
  escapes (bind p f) t -> escapes p t \/ exists a, escapes (f a) t.
Proof.
  induction p as [a|t'|a k IH|R r k IH]; cbn.
  - intros H. right. now exists a.
  - auto.
  - exact IH.
  - intros [s H]. destruct (IH s H) as [H'|H']; [left; now exists s | now right].
Qed.

Lemma try_catch_contains {A : Type} (p : Prog A) (h : Thrown -> Prog A) (t : Thrown) :
  (forall e, ~ escapes (h e) t) -> ~ escapes (try_catch p h) t.
Proof.
  intros Hh. induction p as [a|t'|a k IH|R r k IH]; cbn.
  - auto.
  - apply Hh.
  - exact IH.
  - intros [s H]. exact (IH s H).
Qed.

Lemma finally_passes {A : Type} (p : Prog A) (f : Prog unit) (t : Thrown) :
  ~ escapes f t -> escapes (finally p f) t -> escapes p t.
Proof.
  intros Hf. induction p as [a|t'|a k IH|R r k IH]; cbn.
  - intros H. apply escapes_bind in H. destruct H as [H|[_ H]]; [now apply Hf | exact H].
  - intros H. apply escapes_bind in H. destruct H as [H|[_ H]]; [now apply Hf in H | exact H].
  - exact IH.
  - intros [s H]. exists s. now apply IH.
Qed.

(** X4: the promise returned by [fetchData] is never rejected, whatever
    the selection, the users list and the settlement of its queries: every
    exception ends in its [catch] block.  [fetchLatestUsers] and [fetchUsers]
    have no [try]: they are rejected with any reason their query's promise is
    rejected with, and with nothing once the query has resolved. *)
Theorem fetchData_never_rejects :
  (forall (sel : option string) (us : list User) (t : Thrown),
     ~ escapes (fetchData sel us) t) /\
  (forall t : Thrown, escapes fetchLatestUsers t /\ escapes fetchUsers t) /\
  (forall (res : Response User) (t : Thrown),
     ~ escapes (fetchLatestUsers_resumed (Fulfilled res)) t /\
     ~ escapes (fetchUsers_resumed (Fulfilled res)) t).
Proof.
  split; [|split].
  - intros sel us t. unfold fetchData. destruct (truthy sel); cbn; [|auto].
    intros H. unfold try_catch_finally in H.
    apply finally_passes in H; [|cbn; auto].
    revert H. apply try_catch_contains. intros e. cbn. auto.
  - intros t. split; exists (Rejected t); reflexivity.
  - intros res t. unfold fetchLatestUsers_resumed, fetchLatestUsers_result,
      fetchUsers_resumed, fetchUsers_result. cbn [settled_value bind].
    destruct (res_error res); cbn; auto.
Qed.


(** The state after a successful detail fetch, without the premise on the
    parked functions. *)
Lemma detail_fetch_success_at (w : World) (pre post : list Task) (uid : string)
    (ans : Answer) (feedbackRes : Response Feedback) (itemsRes : Response StoredItem) :
  ans _ (PromiseAll (feedback_query uid) (items_query uid)) =
    Fulfilled (feedbackRes, itemsRes) ->
  res_error feedbackRes = None ->
  res_error itemsRes = None ->
  let w' := settle pre (detail_task uid) post ans w in
  feedback (state w') = or_empty (res_data feedbackRes) /\
  items (state w') = or_empty (res_data itemsRes) /\
  loading (state w') = false /\
  selectedEmail (state w') = selectedEmail (state w) /\
  tasks w' = pre ++ post.
Proof.
  intros Hans H1 H2 w'. subst w'. unfold settle, detail_task, resume.
  rewrite Hans, (fetchData_resumed_succeeded feedbackRes itemsRes H1 H2).
  cbn [run perform with_tasks state console network tasks unhandled].
  rewrite rerender_same_deps by reflexivity. cbn. auto.
Qed.

(** ** The users list *)

(** X5: when the all-users query comes back with an error, the message
    ['Failed to load users'] is shown and the error object alone is logged;
    the users list and every other state cell stay as they are, and the
    second effect does not run again: nothing is sent. *)
Theorem users_fetch_failure (w : World) (pre post : list Task) (ans : Answer)
    (rows : option (list User)) (err : PostgrestError) :
  tasks w = pre ++ all_users_task :: post ->
  ans _ (OneQuery all_users_query) =
    Fulfilled {| res_data := rows; res_error := Some err |} ->
  let w' := settle pre all_users_task post ans w in
  state w' = apply_setter (setError (Some "Failed to load users")) (state w) /\
  console w' = console w ++ [[LogPg err]] /\
  network w' = network w /\
  unhandled w' = unhandled w /\
  tasks w' = pre ++ post.
Proof.
  intros _ Hans w'. subst w'. unfold settle, all_users_task, resume. rewrite Hans.
  cbn [fetchUsers_resumed settled_value bind fetchUsers_result res_error act run
       perform with_tasks state console network tasks unhandled].
  rewrite rerender_same_deps by reflexivity. cbn. auto.
Qed.

Lemma option_string_eqb_neq (a b : option string) :
  a <> b -> option_string_eqb a b = false.
Proof.
  destruct a as [x|], b as [y|]; cbn; intros H; try reflexivity.
  - apply String.eqb_neq. congruence.
  - congruence.
Qed.

(** Storing a fresh users array makes the second effect run again. *)
Lemma rerender_new_users (old : State) (w : World) :
  users_ref (state w) = S (users_ref old) ->
  rerender old w = effect_fetchData w.
Proof.
  intros H. unfold rerender, deps_changed. rewrite H.
  replace (Nat.eqb (users_ref old) (S (users_ref old))) with false.
  - now rewrite orb_true_r.
  - symmetry. apply Nat.eqb_neq. lia.
Qed.

(** X6: when the all-users query comes back without error, [users] becomes
    the rows received ([[]] when [data] is [null]) and the second effect runs
    again on the new list.  With no selection it does nothing more.  With a
    non-empty selection that one of the new users has, the detail fetch for the
    first such user starts at once: loading set, error cleared, the two
    queries sent. *)
Theorem users_arrival (w : World) (pre post : list Task) (ans : Answer)
    (rows : option (list User)) :
  tasks w = pre ++ all_users_task :: post ->
  ans _ (OneQuery all_users_query) =
    Fulfilled {| res_data := rows; res_error := None |} ->
  let w' := settle pre all_users_task post ans w in
  users (state w') = or_empty rows /\
  (truthy (selectedEmail (state w)) = false ->
   state w' = apply_setter (setUsers (or_empty rows)) (state w) /\
   console w' = console w /\
   network w' = network w /\
   tasks w' = pre ++ post) /\
  (forall (e : string) (u : User),
     selectedEmail (state w) = Some e ->
     e <> "" ->
     find (email_is (Some e)) (or_empty rows) = Some u ->
     loading (state w') = true /\
     error (state w') = None /\
     feedback (state w') = feedback (state w) /\
     items (state w') = items (state w) /\
     console w' = console w /\
     network w' = network w ++ [feedback_query (user_id u); items_query (user_id u)] /\
     tasks w' = (pre ++ post) ++ [detail_task (user_id u)]).
Proof.
  intros _ Hans w'. subst w'.
  set (w1 := {| state := apply_setter (setUsers (or_empty rows)) (state w);
                console := console w; network := network w; tasks := pre ++ post;
                unhandled := unhandled w |}).
  assert (E : settle pre all_users_task post ans w =
              run (fetchData (selectedEmail (state w)) (or_empty rows)) w1).
  { unfold settle, all_users_task, resume. rewrite Hans.
    cbn [fetchUsers_resumed settled_value bind fetchUsers_result res_error res_data
         act run perform with_tasks state console network tasks unhandled].
    rewrite rerender_new_users by reflexivity. reflexivity. }
  rewrite E. clear E.
  destruct (truthy (selectedEmail (state w))) eqn:T.
  - destruct (selectedEmail (state w)) as [e|] eqn:Hs; [|discriminate].
    change (truthy e = true) in T.
    destruct (find (email_is (Some e)) (or_empty rows)) as [u|] eqn:F.
    + rewrite (fetchData_suspends e (or_empty rows) u T F). cbn.
      split; [reflexivity|]. split; [discriminate|].
      intros e' u' He' _ F'. injection He' as <-.
      rewrite F in F'. injection F' as <-. auto 10.
    + rewrite (fetchData_user_not_found e (or_empty rows) T F). cbn.
      split; [reflexivity|]. split; [discriminate|].
      intros e' u' He' _ F'. injection He' as <-. congruence.
  - rewrite (fetchData_returns _ _ T). cbn.
    split; [reflexivity|]. split; [auto|].
    intros e u Hs He. rewrite Hs in T. apply truthy_nonempty in He.
    change (truthy e = false) in T. congruence.
Qed.

(** ** Changing the selection *)

Lemma onChange_new_selection (w : World) (e : string) :
  selectedEmail (state w) <> Some e ->
  onChange e w =
  effect_fetchData
    {| state := apply_setter (setSelectedEmail (Some e)) (state w);
       console := console w; network := network w; tasks := tasks w;
       unhandled := unhandled w |}.
Proof.
  intros H. unfold onChange, rerender, deps_changed. cbn [act run perform state
    apply_setter selectedEmail users_ref].
  now rewrite (option_string_eqb_neq _ _ H).
Qed.

Lemma onChange_starts_fetch (w : World) (e : string) (u : User) :
  truthy e = true ->
  find (email_is (Some e)) (users (state w)) = Some u ->
  selectedEmail (state w) <> Some e ->
  onChange e w =
  {| state := apply_setter (setError None)
                (apply_setter (setLoading true)
                   (apply_setter (setSelectedEmail (Some e)) (state w)));
     console := console w;
     network := network w ++ [feedback_query (user_id u); items_query (user_id u)];
     tasks := tasks w ++ [detail_task (user_id u)];
     unhandled := unhandled w |}.
Proof.
  intros He Hf Hs. rewrite (onChange_new_selection w e Hs). unfold effect_fetchData.
  cbn [state apply_setter selectedEmail users].
  now rewrite (fetchData_suspends e (users (state w)) u He Hf).
Qed.

(** X7: the second effect depends on the selection: choosing a loaded
    user's email that differs from the current selection stores it and starts
    exactly one detail fetch, for that user; choosing the email that is
    already selected changes nothing and sends nothing. *)
Theorem selection_change_fetches_once (w : World) (e : string) (u : User) :
  e <> "" ->
  find (email_is (Some e)) (users (state w)) = Some u ->
  (selectedEmail (state w) = Some e -> onChange e w = w) /\
  (selectedEmail (state w) <> Some e ->
   onChange e w =
   {| state := apply_setter (setError None)
                 (apply_setter (setLoading true)
                    (apply_setter (setSelectedEmail (Some e)) (state w)));
      console := console w;
      network := network w ++ [feedback_query (user_id u); items_query (user_id u)];
      tasks := tasks w ++ [detail_task (user_id u)];
      unhandled := unhandled w |}).
Proof.
  intros He Hf. apply truthy_nonempty in He. split.
  - intros Hs. unfold onChange. cbn [act run perform].
    rewrite rerender_same_deps; cbn; auto.
    destruct w as [s c n t x]. destruct s. cbn in *. now subst.
  - intros Hs. exact (onChange_starts_fetch w e u He Hf Hs).
Qed.

(** X8: nothing cancels a superseded fetch.  If a first user is selected,
    then a second, and the second's records arrive before the first's, the
    late arrival overwrites them: in the end the selector shows the second
    email while [feedback] and [items] hold the first user's rows. *)
Theorem stale_response_overwrites (w : World) (e1 e2 : string) (u1 u2 : User)
    (ans1 ans2 : Answer)
    (f1 f2 : Response Feedback) (i1 i2 : Response StoredItem) :
  e1 <> "" -> e2 <> "" -> e1 <> e2 ->
  selectedEmail (state w) <> Some e1 ->
  find (email_is (Some e1)) (users (state w)) = Some u1 ->
  find (email_is (Some e2)) (users (state w)) = Some u2 ->
  ans1 _ (PromiseAll (feedback_query (user_id u1)) (items_query (user_id u1))) =
    Fulfilled (f1, i1) ->
  ans2 _ (PromiseAll (feedback_query (user_id u2)) (items_query (user_id u2))) =
    Fulfilled (f2, i2) ->
  res_error f1 = None -> res_error i1 = None ->
  res_error f2 = None -> res_error i2 = None ->
  let both := onChange e2 (onChange e1 w) in
  let second_arrived :=
    settle (tasks w ++ [detail_task (user_id u1)]) (detail_task (user_id u2)) []
      ans2 both in
  let first_arrived :=
    settle (tasks w) (detail_task (user_id u1)) [] ans1 second_arrived in
  tasks both = (tasks w ++ [detail_task (user_id u1)]) ++ [detail_task (user_id u2)] /\
  feedback (state second_arrived) = or_empty (res_data f2) /\
  tasks second_arrived = tasks w ++ [detail_task (user_id u1)] /\
  selectedEmail (state first_arrived) = Some e2 /\
  feedback (state first_arrived) = or_empty (res_data f1) /\
  items (state first_arrived) = or_empty (res_data i1) /\
  loading (state first_arrived) = false /\
  tasks first_arrived = tasks w.
Proof.
  intros He1 He2 Hne Hs Hf1 Hf2 Ha1 Ha2 E1 E1' E2 E2'.
  apply truthy_nonempty in He1, He2.
  pose proof (onChange_starts_fetch w e1 u1 He1 Hf1 Hs) as S1.
  assert (Hs2 : selectedEmail (state (onChange e1 w)) <> Some e2).
  { rewrite S1. cbn. congruence. }
  assert (Hf2' : find (email_is (Some e2)) (users (state (onChange e1 w))) = Some u2).
  { rewrite S1. exact Hf2. }
  pose proof (onChange_starts_fetch (onChange e1 w) e2 u2 He2 Hf2' Hs2) as S2.
  assert (T2 : tasks (onChange e2 (onChange e1 w)) =
               (tasks w ++ [detail_task (user_id u1)]) ++ [detail_task (user_id u2)]).
  { rewrite S2, S1. reflexivity. }
  cbv zeta.
  destruct (detail_fetch_success_at (onChange e2 (onChange e1 w))
              (tasks w ++ [detail_task (user_id u1)]) [] (user_id u2) ans2 f2 i2
              Ha2 E2 E2') as [A1 [A2 [A3 [A4 A5]]]].
  rewrite app_nil_r in A5.
  destruct (detail_fetch_success_at
              (settle (tasks w ++ [detail_task (user_id u1)]) (detail_task (user_id u2)) []
                 ans2 (onChange e2 (onChange e1 w)))
              (tasks w) [] (user_id u1) ans1 f1 i1 Ha1 E1 E1') as [B1 [B2 [B3 [B4 B5]]]].
  rewrite app_nil_r in B5.
  repeat split; auto.
  rewrite B4, A4, S2. reflexivity.
Qed.


(** ** Invariants of the event loop *)

Lemma run_fetchData_cases (sel : option string) (us : list User) (w : World) :
  let w' := run (fetchData sel us) w in
  w' = w \/
  (exists u, find (email_is sel) us = Some u /\
     w' = {| state := apply_setter (setError None)
                        (apply_setter (setLoading true) (state w));
             console := console w;
             network := network w ++ [feedback_query (user_id u); items_query (user_id u)];
             tasks := tasks w ++ [detail_task (user_id u)];
             unhandled := unhandled w |}) \/
  w' = {| state := apply_setter (setLoading false)
                     (apply_setter (setError (Some "Failed to load data"))
                        (apply_setter (setError None)
                           (apply_setter (setLoading true) (state w))));
          console := console w ++ [[LogThrown (JsError "User not found")]];
          network := network w; tasks := tasks w; unhandled := unhandled w |}.
Proof.
  cbv zeta. destruct (truthy sel) eqn:T.
  - destruct sel as [e|]; [|discriminate]. change (truthy e = true) in T.
    destruct (find (email_is (Some e)) us) as [u|] eqn:F.
    + right. left. exists u. split; [reflexivity|].
      now rewrite (fetchData_suspends e us u T F).
    + right. right. now rewrite (fetchData_user_not_found e us T F).
  - left. now rewrite fetchData_returns.
Qed.

(** What resuming a parked function leaves alone. *)
Lemma resume_known_frame (t : Task) (ans : Answer) (w : World) :
  known_task t ->
  let w' := resume t ans w in
  network w' = network w /\
  tasks w' = tasks w /\
  (awaits_all_users t = false -> users (state w') = users (state w)) /\
  (known_message (error (state w)) -> known_message (error (state w'))).
Proof.
  unfold known_message.
  intros K. destruct K as [| |uid]; cbn [resume latest_users_task all_users_task
                                          detail_task].
  - destruct (ans _ (OneQuery latest_users_query)) as [res|thr]; [|cbn; repeat split; auto].
    unfold fetchLatestUsers_resumed, fetchLatestUsers_result. cbn [settled_value bind].
    destruct (res_error res); cbn; repeat split; auto.
  - destruct (ans _ (OneQuery all_users_query)) as [res|thr];
      [|cbn; intuition discriminate].
    unfold fetchUsers_resumed, fetchUsers_result. cbn [settled_value bind].
    destruct (res_error res); cbn; intuition discriminate.
  - destruct (ans _ (PromiseAll (feedback_query uid) (items_query uid)))
      as [[feedbackRes itemsRes]|thr]; [|cbn; repeat split; auto].
    destruct (res_error feedbackRes) as [e1|] eqn:E1.
    + rewrite (fetchData_resumed_failed feedbackRes itemsRes e1);
        [cbn; repeat split; auto | unfold js_or; now rewrite E1].
    + destruct (res_error itemsRes) as [e2|] eqn:E2.
      * rewrite (fetchData_resumed_failed feedbackRes itemsRes e2);
          [cbn; repeat split; auto | unfold js_or; now rewrite E1, E2].
      * rewrite (fetchData_resumed_succeeded feedbackRes itemsRes E1 E2). cbn. repeat split; auto.
Qed.

Lemma detail_queries_app (a b : list string) :
  detail_queries (a ++ b) = detail_queries a ++ detail_queries b.
Proof. apply flat_map_app. Qed.

Lemma history_inv_effect (w : World) : history_inv w -> history_inv (effect_fetchData w).
Proof.
  intros [K [[uids [N U]] [P C]]]. unfold effect_fetchData.
  destruct (run_fetchData_cases (selectedEmail (state w)) (users (state w)) w)
    as [E|[[u [F E]]|E]]; rewrite E; clear E.
  - repeat split; eauto. exists uids. now split.
  - unfold history_inv, sent_so_far.
    cbn [tasks network state apply_setter users].
    rewrite filter_app. cbn [filter detail_task awaits_all_users]. rewrite app_nil_r.
    repeat split; auto.
    + apply Forall_app. split; [exact K|]. repeat constructor.
    + exists (uids ++ [user_id u]). split.
      * rewrite N, detail_queries_app, <- app_assoc. reflexivity.
      * apply Forall_app. split; [exact U|]. constructor; [|constructor].
        apply in_map. now apply find_some in F.
  - unfold history_inv, sent_so_far.
    cbn [tasks network state apply_setter users].
    repeat split; auto. exists uids. now split.
Qed.

Lemma history_inv_rerender (old : State) (w : World) :
  history_inv w -> history_inv (rerender old w).
Proof.
  intros I. unfold rerender. destruct (deps_changed old (state w)); [|exact I].
  now apply history_inv_effect.
Qed.

Lemma history_inv_mount : history_inv mount.
Proof.
  unfold history_inv, sent_so_far. cbn. repeat split.
  - repeat constructor.
  - exists []. split; [reflexivity | constructor].
  - lia.
Qed.

Lemma history_inv_step (w w' : World) : history_inv w -> step w w' -> history_inv w'.
Proof.
  intros [K [[uids [N U]] [P C]]] S. destruct S as [w value|w pre t post ans E].
  - apply history_inv_rerender. unfold history_inv, sent_so_far.
    cbn [act run perform tasks network state apply_setter users].
    repeat split; auto. exists uids. now split.
  - apply history_inv_rerender.
    rewrite E in K, P, C. apply Forall_app in K. destruct K as [Kpre K].
    inversion K as [|? ? Kt Kpost]; subst.
    destruct (resume_known_frame t ans (with_tasks (pre ++ post) w) Kt)
      as [En [Et [Eu _]]].
    cbn [with_tasks network tasks state] in En, Et, Eu.
    rewrite filter_app in P, C. cbn [filter] in P, C.
    unfold history_inv, sent_so_far. rewrite En, Et, filter_app.
    split; [apply Forall_app; now split|].
    destruct (awaits_all_users t) eqn:A.
    + rewrite length_app in C. cbn [List.length] in C.
      assert (Fpre : filter awaits_all_users pre = []).
      { destruct (filter awaits_all_users pre); [reflexivity | cbn in C; lia]. }
      assert (Fpost : filter awaits_all_users post = []).
      { destruct (filter awaits_all_users post); [reflexivity | cbn in C; lia]. }
      rewrite Fpre, Fpost. cbn.
      split; [|split; [congruence | lia]].
      assert (Hus : users (state w) = []).
      { apply P. rewrite Fpre. discriminate. }
      rewrite Hus in U. exists []. split.
      * rewrite N. destruct uids as [|uid uids]; [reflexivity|].
        inversion U as [|? ? Hin _]. destruct Hin.
      * constructor.
    + rewrite (Eu eq_refl).
      split; [exists uids; now split|]. split.
      * intros H. apply P. exact H.
      * rewrite length_app in C |- *. exact C.
Qed.

Lemma history_inv_reachable (w : World) : reachable w -> history_inv w.
Proof.
  induction 1 as [|w w' _ IH S]; [apply history_inv_mount|].
  exact (history_inv_step w w' IH S).
Qed.

(** X9: in every state the component can reach, what has been sent is the
    recent-users query and the all-users query, once each and first, followed
    only by pairs made of the feedback query and the items query for one and
    the same [user_id], and that id is the id of a user in the loaded list.
    At most one all-users query is ever outstanding, and while it is the users
    list is empty. *)
Theorem only_reads_for_loaded_users (w : World) :
  reachable w ->
  (exists uids,
     network w = [latest_users_query; all_users_query] ++ detail_queries uids /\
     Forall (fun uid => In uid (map user_id (users (state w)))) uids) /\
  List.length (filter awaits_all_users (tasks w)) <= 1 /\
  (filter awaits_all_users (tasks w) <> [] -> users (state w) = []).
Proof.
  intros R. destruct (history_inv_reachable w R) as [_ [S [P C]]]. auto.
Qed.

Lemma known_message_effect (w : World) :
  known_message (error (state w)) -> known_message (error (state (effect_fetchData w))).
Proof.
  unfold effect_fetchData, known_message. intros H.
  destruct (run_fetchData_cases (selectedEmail (state w)) (users (state w)) w)
    as [E|[[u [_ E]]|E]]; rewrite E; cbn; auto.
Qed.

(** X10: in every state the component can reach, the error shown is
    absent, ['Failed to load users'] or ['Failed to load data']; no other
    text, and in particular no text taken from an exception or from the remote
    service, reaches the page through [error]. *)
Theorem only_generic_messages (w : World) :
  reachable w -> known_message (error (state w)).
Proof.
  intros R. induction R as [|w w' R IH S].
  - left. reflexivity.
  - pose proof (loading_inv_reachable w R) as [K _].
    destruct S as [w value|w pre t post ans E].
    + unfold onChange, rerender.
      match goal with |- context [if ?c then _ else _] => destruct c end;
        [apply known_message_effect|]; exact IH.
    + rewrite E in K. apply Forall_app in K. destruct K as [_ K].
      inversion K as [|? ? Kt _]; subst.
      destruct (resume_known_frame t ans (with_tasks (pre ++ post) w) Kt)
        as [_ [_ [_ Em]]].
      specialize (Em IH).
      unfold settle, rerender.
      match goal with |- context [if ?c then _ else _] => destruct c end;
        [apply known_message_effect|]; exact Em.
Qed.


(** ** The text of the page *)

Lemma append_nil_r (s : string) : (s ++ "")%string = s.
Proof. induction s as [|c s IH]; cbn; [reflexivity | now rewrite IH]. Qed.

Lemma append_assoc (a b c : string) : ((a ++ b) ++ c)%string = (a ++ b ++ c)%string.
Proof. induction a as [|x a IH]; cbn; [reflexivity | now rewrite IH]. Qed.

Lemma textContent_Arr_map {A : Type} (f : A -> node) (l : list A) :
  textContent (Arr (map f l)) = join (map (fun a => textContent (f a)) l).
Proof.
  induction l as [|a l IH]; [reflexivity|].
  cbn [map].
  change (textContent (Arr (f a :: map f l)))
    with (String.append (textContent (f a)) (textContent (Arr (map f l)))).
  rewrite IH. reflexivity.
Qed.

Lemma textContent_Elem (tag : string) (props : list (string * string))
    (cs : list node) :
  textContent (Elem tag props cs) = join (map textContent cs).
Proof.
  change (textContent (Elem tag props cs)) with (textContent (Arr cs)).
  rewrite <- (map_id cs) at 1. apply textContent_Arr_map.
Qed.

Lemma textContent_Text (s : string) : textContent (Text s) = s.
Proof. reflexivity. Qed.

(** Unfold the text of elements, leaving the text of arrays in place. *)
Ltac text_of_elements :=
  repeat (rewrite ?textContent_Elem, ?textContent_Text; cbn [map join fold_right]).

Lemma textContent_item_row (it : StoredItem) :
  textContent (item_row it) = item_text it.
Proof.
  unfold item_row, item_text, notes_value, jsx_or.
  destruct (notes it) as [[|c s]|]; cbn; now rewrite ?append_nil_r.
Qed.

Lemma textContent_user_card (u : User) :
  textContent (latest_user_card u) = user_card_text u.
Proof.
  unfold latest_user_card, user_card_text.
  destruct (created_at u) as [| |[|c s]]; cbn; now rewrite ?append_nil_r.
Qed.

(** X11: the items table is absent when there are no items; otherwise its
    text is the heading and the three column titles followed by one row per
    item, in the order of [items], each row being the name, the location and
    the notes, with the en dash for notes that are [null] or empty.  The
    recent-users strip is likewise absent when empty, and otherwise shows each
    user's email and date, with ['Unknown date'] for a missing or empty one. *)
Theorem lists_render_in_order (its : list StoredItem) (us : list User) :
  textContent (items_table its) =
    match its with
    | [] => ""
    | _ :: _ => ("📦 Saved Items" ++ "ItemLocationNotes" ++ join (map item_text its))%string
    end /\
  (items_table its = Nothing <-> its = []) /\
  textContent (latest_users_strip us) =
    match us with
    | [] => ""
    | _ :: _ => ("🧑‍💻 Latest Users" ++ join (map user_card_text us))%string
    end /\
  (latest_users_strip us = Nothing <-> us = []).
Proof.
  split; [|split; [|split]].
  - destruct its as [|it its]; [reflexivity|].
    unfold items_table, jsx_and.
    change (truthy (Nat.ltb 0 (List.length (it :: its)))) with true.
    remember (it :: its) as l eqn:El. unfold child, Child_node.
    text_of_elements.
    rewrite (textContent_Arr_map item_row l).
    rewrite (map_ext _ _ textContent_item_row).
    now rewrite ?append_nil_r.
  - destruct its; cbn; split; intros H; try reflexivity; discriminate.
  - destruct us as [|u us]; [reflexivity|].
    unfold latest_users_strip, jsx_and.
    change (truthy (Nat.ltb 0 (List.length (u :: us)))) with true.
    remember (u :: us) as l eqn:El. unfold child, Child_node.
    text_of_elements.
    rewrite (textContent_Arr_map latest_user_card l).
    rewrite (map_ext _ _ textContent_user_card).
    now rewrite ?append_nil_r.
  - destruct us; cbn; split; intros H; try reflexivity; discriminate.
Qed.


Lemma textContent_strong (s : string) : textContent (strong s) = s.
Proof. unfold strong. cbn. apply append_nil_r. Qed.

Lemma textContent_shown_or (x : nullable string) (placeholder : string) :
  textContent (jsx_or x (em placeholder)) = shown_or x placeholder.
Proof.
  unfold jsx_or, shown_or. destruct x as [| |[|c s]]; cbn; now rewrite ?append_nil_r.
Qed.

Lemma textContent_child (x : nullable string) : textContent (child x) = string_of x.
Proof. destruct x; reflexivity. Qed.

Lemma textContent_optional_line (label : string) (x : nullable string) :
  textContent (optional_line label x) = labelled label x.
Proof.
  unfold optional_line, jsx_and, labelled.
  destruct x as [| |[|c s]]; try reflexivity.
  change (truthy (val (String c s))) with true. unfold child at 1, Child_node.
  text_of_elements. rewrite textContent_strong, textContent_child.
  now rewrite ?append_nil_r.
Qed.

Lemma textContent_confidence (f : Feedback) :
  textContent (confidence_value f) =
  match confidence_score f with
  | val n => Number_toString n
  | undefined | null => "n/a"
  end.
Proof. unfold confidence_value, jsx_coalesce. destruct (confidence_score f); reflexivity. Qed.

Lemma textContent_was_correct (f : Feedback) :
  textContent (was_correct_value f) =
  match was_correct f with val true => "✅ Yes" | _ => "❌ No" end.
Proof.
  unfold was_correct_value, jsx_cond. destruct (was_correct f) as [| |[|]]; reflexivity.
Qed.

Lemma textContent_audio (x : nullable string) :
  textContent (jsx_and x
    (Elem "div" [] [Elem "audio" [("controls", "true"); ("src", string_of x)] []])) = "".
Proof. unfold jsx_and. destruct x as [| |[|c s]]; reflexivity. Qed.

(** X12: the text of one feedback entry is, in this order: the date, the
    transcript or ['None'], the intent, the action type, the item, the
    location or ['Not provided'], the confidence or ['n/a'], ['✅ Yes'] or
    ['❌ No'], and then a labelled line for each of corrected item, corrected
    location, corrected command and note that is set and not empty.  A field
    that is [null], [undefined] or empty contributes its placeholder, or
    nothing where it has none; the audio player adds no text. *)
Theorem feedback_entry_text (f : Feedback) :
  textContent (feedback_entry f) = feedback_text f.
Proof.
  unfold feedback_entry, transcript_value. text_of_elements.
  rewrite !textContent_strong, !textContent_shown_or, !textContent_child,
    !textContent_optional_line, textContent_confidence, textContent_was_correct,
    textContent_audio.
  unfold feedback_text.
  rewrite ?append_nil_r, ?append_assoc. reflexivity.
Qed.

(** ** The page around a detail fetch *)

(** X13: after a detail fetch has failed, by an error in either result or
    by a rejection, the page is the page of the moment before with two
    changes only: no loading line, and the paragraph ['Failed to load data'].
    The items table and the feedback list still show what they showed. *)
Theorem page_after_failed_fetch (w : World) (pre post : list Task) (uid : string)
    (ans : Answer) :
  ((exists reason,
      ans _ (PromiseAll (feedback_query uid) (items_query uid)) = Rejected reason) \/
   (exists feedbackRes itemsRes,
      ans _ (PromiseAll (feedback_query uid) (items_query uid)) =
        Fulfilled (feedbackRes, itemsRes) /\
      (res_error feedbackRes <> None \/ res_error itemsRes <> None))) ->
  App (state (settle pre (detail_task uid) post ans w)) =
  Elem "div" []
    [latest_users_strip (latestUsers (state w));
     Elem "h2" [] [Text "Transcript Feedback Viewer"];
     Elem "label" [("htmlFor", "email")] [Text "Filter by user email:"];
     email_select (selectedEmail (state w)) (users (state w));
     Nothing;
     Elem "p" [] [Text "Failed to load data"];
     items_table (items (state w));
     feedback_list (feedback (state w))].
Proof.
  intros H.
  assert (exists t, fetchData_resumed
            (ans _ (PromiseAll (feedback_query uid) (items_query uid))) =
          Do (setError (Some "Failed to load data"))
            (Do (console_error [LogThrown t]) (Do (setLoading false) (Ret tt))))
    as [t Ht].
  { destruct H as [[reason Hr]|[feedbackRes [itemsRes [Hf He]]]].
    - exists reason. now rewrite Hr.
    - rewrite Hf. destruct (res_error feedbackRes) as [e1|] eqn:E1.
      + exists (QueryFailed e1). apply fetchData_resumed_failed.
        unfold js_or. now rewrite E1.
      + destruct (res_error itemsRes) as [e2|] eqn:E2.
        * exists (QueryFailed e2). apply fetchData_resumed_failed.
          unfold js_or. now rewrite E1, E2.
        * destruct He; congruence. }
  rewrite (settle_detail_failed w pre post uid ans t Ht). reflexivity.
Qed.

(** X14: right after another loaded user's email is chosen, the page shows
    the new email in the selector and the line ['Loading data...'], no error
    paragraph, and still the items table and the feedback list of before:
    the previous user's records stay on screen until the new ones arrive. *)
Theorem page_while_loading (w : World) (e : string) (u : User) :
  e <> "" ->
  find (email_is (Some e)) (users (state w)) = Some u ->
  selectedEmail (state w) <> Some e ->
  App (state (onChange e w)) =
  Elem "div" []
    [latest_users_strip (latestUsers (state w));
     Elem "h2" [] [Text "Transcript Feedback Viewer"];
     Elem "label" [("htmlFor", "email")] [Text "Filter by user email:"];
     email_select (Some e) (users (state w));
     Elem "p" [] [Text "Loading data..."];
     Nothing;
     items_table (items (state w));
     feedback_list (feedback (state w))].
Proof.
  intros He Hf Hs. apply truthy_nonempty in He.
  rewrite (onChange_new_selection w e Hs). unfold effect_fetchData.
  cbn [state apply_setter selectedEmail users].
  rewrite (fetchData_suspends e (users (state w)) u He Hf). reflexivity.
Qed.

(** ** The selector *)



End App.

Arguments Nothing {number}.
Arguments items_table {number} items.
Arguments notes_value {number} it.
Arguments select_options {number} users.
Arguments user_option {number} user.
Arguments OneQuery {number} q.
Arguments PromiseAll {number} qf qi.
Arguments setLoading {number} b.
Arguments Text {number} s.
Arguments em {number} s.
Arguments placeholder_option {number}.
Arguments initial_state {number}.
Arguments initial_world {number}.
Arguments mount {number}.
Arguments fetchData {number} selectedEmail users.
Arguments fetchLatestUsers {number}.
Arguments fetchUsers {number}.
Arguments latest_users_task {number}.
Arguments all_users_task {number}.
Arguments detail_task {number} uid.
Arguments users_loaded {number}.
Arguments alice_selected {number}.
Arguments showing_alice {number}.
Arguments bob_selected {number}.
Arguments sample_feedback {number}.
Arguments users_arrive {number}.
Arguments detail_arrives {number}.
Arguments feedback_fails {number}.
Arguments latest_fails {number}.

Arguments within {number} _ _.
Arguments strong {number} s.
Arguments with_confidence {number} c f.
Arguments setFeedback {number} l.
Arguments setItems {number} l.

(** C10: every record in [feedback] has its entry in the page, and the
    entry has the line [Confidence:] followed by the score rendered with
    [??]: the placeholder [n/a] appears exactly when the field is [null] or
    [undefined]; any number, zero included, is rendered as that number, so a
    score of 0 displays as ["0"].  A truthiness-tested field such as
    [transcript] shows its placeholder for the empty string as well. *)
Theorem confidence_nullish_coalescing :
  (forall (number : Type) (d : string -> string) (s : State number)
          (f : Feedback number),
     In f (feedback s) ->
     within (feedback_entry d f) (App d s) /\
     within (Elem "div" [] [strong "Confidence:"; Text " "; confidence_value f])
       (feedback_entry d f)) /\
  (forall (number : Type) (f : Feedback number),
     confidence_value f = em "n/a" <->
     (confidence_score f = null \/ confidence_score f = undefined)) /\
  (forall (number : Type) (toString : number -> string) (f : Feedback number)
          (n : number),
     confidence_score f = val n ->
     confidence_value f = Num n /\
     textContent toString (confidence_value f) = toString n) /\
  (forall f : Feedback SafeInteger,
     confidence_score f = val safe_zero ->
     textContent SafeInteger_toString (confidence_value f) = "0" /\
     textContent SafeInteger_toString
       (Elem "div" [] [strong "Confidence:"; Text " "; confidence_value f]) =
     "Confidence: 0") /\
  (forall (number : Type) (d : string -> string) (f : Feedback number),
     transcript f = val "" ->
     transcript_value f = em "None" /\
     within (Elem "div" [] [strong "Transcript:"; Text " "; em "None"])
       (feedback_entry d f)).
Proof.
  split; [|split; [|split; [|split]]].
  - intros number d s f Hin. split; [now apply feedback_entry_in_page|].
    apply feedback_entry_lines.
  - intros number f. unfold confidence_value, jsx_coalesce.
    destruct (confidence_score f); cbn; split; intros H; auto;
      try discriminate; destruct H; discriminate.
  - intros number toString f n H. unfold confidence_value.
    rewrite H. split; reflexivity.
  - intros f H. unfold confidence_value. rewrite H. split; reflexivity.
  - intros number d f H.
    assert (E : transcript_value f = em "None").
    { unfold transcript_value. rewrite H. reflexivity. }
    split; [exact E|]. rewrite <- E. apply feedback_entry_lines.
Qed.

(** * The properties on the sample session *)

Example sample_feedback_text :
  textContent SafeInteger_toString (feedback_entry (fun d => d) sample_feedback) =
  "2024-05-01T10:00:00ZTranscript: put the keys in the drawerIntent: storeAction Type: storeItem: keysLocation: drawerConfidence: n/aWas Correct: ❌ No".
Proof. reflexivity. Qed.

Example sample_item_text :
  textContent SafeInteger_toString (item_row SafeInteger sample_item) = "keysdrawer–".
Proof. reflexivity. Qed.

Example sample_selector :
  select_options (number := Z) [alice; bob] =
  [Elem "option" [("value", "")] [Text "-- Select a user --"];
   Elem "option" [("key", "u-1"); ("value", "alice@example.com")]
     [Text "alice@example.com"];
   Elem "option" [("key", "u-2"); ("value", "bob@example.com")]
     [Text "bob@example.com"]].
Proof. reflexivity. Qed.

(** Two detail fetches can overlap: when bob is selected before alice's
    records arrive, the arrival clears the loading flag and stores alice's
    records while bob's fetch is still parked.  The flag is thus not set for
    the whole time a fetch is in flight. *)
Example overlapping_fetches :
  let w := settle [latest_users_task] (detail_task "u-1") [detail_task "u-2"]
             detail_arrives (onChange "bob@example.com" (@alice_selected Z)) in
  tasks w = [latest_users_task; detail_task "u-2"] /\
  selectedEmail (state w) = Some "bob@example.com" /\
  feedback (state w) = [sample_feedback] /\
  loading (state w) = false.
Proof. cbn. auto. Qed.

Lemma detail_fetch_all_or_nothing_witness :
  "bob@example.com" <> "" /\
  find (email_is (Some "bob@example.com")) [alice; bob] = Some bob /\
  let w := @bob_selected Z in
  let w' := settle [latest_users_task] (detail_task "u-2") [] feedback_fails w in
  feedback (state w') = [sample_feedback] /\
  items (state w') = [sample_item] /\
  error (state w') = Some "Failed to load data" /\
  console w' = [[LogThrown (QueryFailed permission_denied)]].
Proof.
  split; [discriminate|]. split; [reflexivity|].
  destruct (detail_fetch_all_or_nothing Z showing_alice "bob@example.com"
              [alice; bob] bob) as [_ H]; [discriminate | reflexivity |].
  exact (H bob_selected [latest_users_task] [] feedback_fails _ _ permission_denied
           eq_refl eq_refl (or_introl (conj eq_refl eq_refl))).
Defined.

Lemma loading_flag_lifecycle_witness :
  "bob@example.com" <> "" /\
  loading (state (run (fetchData (Some "bob@example.com") [alice; bob])
                    (@showing_alice Z))) = true /\
  loading (state (settle [latest_users_task] (detail_task "u-2") [] feedback_fails
                    (@bob_selected Z))) = false /\
  loading (state (settle [latest_users_task] (detail_task "u-2") [] detail_arrives
                    (@bob_selected Z))) = false /\
  loading (state (@showing_alice Z)) = false.
Proof.
  assert (Hne : "bob@example.com" <> "") by discriminate.
  destruct (loading_flag_lifecycle Z "bob@example.com" [alice; bob] Hne)
    as [_ [Hstart [_ [Hend Hidle]]]].
  split; [exact Hne|]. split; [|split; [|split]].
  - exact (proj1 (Hstart showing_alice bob eq_refl)).
  - exact (proj1 (Hend bob_selected [latest_users_task] [] "u-2" feedback_fails eq_refl)).
  - exact (proj1 (Hend bob_selected [latest_users_task] [] "u-2" detail_arrives eq_refl)).
  - exact (Hidle showing_alice
             (proj1 (proj2 (proj2 (sample_session_reachable Z)))) eq_refl).
Defined.

Lemma user_not_found_is_local_witness :
  let w := @showing_alice Z in
  let w' := run (fetchData (Some "Alice@example.com") [alice; bob]) w in
  network w' = network w /\
  tasks w' = tasks w /\
  feedback (state w') = [sample_feedback] /\
  items (state w') = [sample_item] /\
  loading (state w') = false /\
  unhandled w' = [] /\
  console w' = [[LogThrown (JsError "User not found")]] /\
  error (state w') = Some "Failed to load data".
Proof.
  apply (user_not_found_is_local Z showing_alice "Alice@example.com" [alice; bob]).
  - discriminate.
  - intros u [<-|[<-|[]]]; discriminate.
Defined.

(** C3 as stated fails: after selecting an email no loaded user has, the
    error shown is not ['User not found']. *)
Lemma user_not_found_shows_generic_message :
  "carol@example.com" <> "" /\
  (forall u, In u [alice; bob] -> email u <> "carol@example.com") /\
  let w' := run (fetchData (Some "carol@example.com") [alice; bob]) (@showing_alice Z) in
  network w' = network (@showing_alice Z) /\
  error (state w') = Some "Failed to load data" /\
  error (state w') <> Some "User not found".
Proof.
  split; [discriminate|]. split.
  - intros u [<-|[<-|[]]]; discriminate.
  - cbn. repeat split; discriminate.
Qed.

Lemma selected_user_resolved_witness :
  exists u,
    find (email_is (Some "bob@example.com")) [alice; bob] = Some u /\
    In u [alice; bob] /\ email u = "bob@example.com" /\
    let w' := run (fetchData (Some "bob@example.com") [alice; bob]) (@showing_alice Z) in
    network w' =
      network (@showing_alice Z) ++ [feedback_query (user_id u); items_query (user_id u)] /\
    q_eq (feedback_query (user_id u)) = Some ("user_id", user_id u) /\
    q_eq (items_query (user_id u)) = Some ("user_id", user_id u).
Proof.
  apply (selected_user_resolved Z showing_alice "bob@example.com" [alice; bob]).
  - discriminate.
  - exists bob. split; [right; left; reflexivity | reflexivity].
Defined.

(** C4 as stated fails: a loaded user may have the empty string as email;
    selecting that email is a cleared selection, no user is resolved and no
    query is sent. *)
Lemma empty_email_resolves_nobody :
  (exists u, In u [nameless; alice] /\ email u = "") /\
  let w := @users_loaded Z in
  let w' := run (fetchData (Some "") [nameless; alice]) w in
  w' = w /\
  ~ (exists u, network w' =
       network w ++ [feedback_query (user_id u); items_query (user_id u)]).
Proof.
  split; [exists nameless; split; [left|]; reflexivity|].
  split; [reflexivity|].
  intros [u H]. cbn in H. discriminate H.
Qed.

Lemma latest_users_silent_failure_witness :
  let w := @mount Z in
  let failed := settle [] latest_users_task [all_users_task] latest_fails w in
  let arrived := settle [] latest_users_task [all_users_task] users_arrive w in
  (state failed = state w /\
   network failed = network w /\
   console failed = [[LogStr "Failed to fetch latest users:"; LogPg permission_denied]]) /\
  (latestUsers (state arrived) = [alice; bob] /\
   List.length (latestUsers (state arrived)) <= 10 /\
   console arrived = []).
Proof.
  destruct (latest_users_silent_failure Z initial_world) as [_ [_ [Hfail Hok]]].
  split.
  - exact (Hfail mount [] [all_users_task] latest_fails None permission_denied
             eq_refl eq_refl).
  - refine (Hok mount [] [all_users_task] users_arrive (Some [alice; bob])
              eq_refl eq_refl _).
    cbn. lia.
Defined.



(** * Further properties on the sample session *)

Arguments both_fail {number}.
Arguments promise_rejects {number}.
Arguments users_fail {number}.

Lemma detail_fetch_success_witness :
  let w' := settle [latest_users_task] (detail_task "u-2") [] detail_arrives
              (@bob_selected Z) in
  feedback (state w') = [sample_feedback] /\
  items (state w') = [sample_item] /\
  loading (state w') = false /\
  error (state w') = None /\
  selectedEmail (state w') = Some "bob@example.com" /\
  users (state w') = [alice; bob] /\
  latestUsers (state w') = [] /\
  console w' = [] /\
  network w' = network (@bob_selected Z) /\
  unhandled w' = [] /\
  tasks w' = [latest_users_task].
Proof.
  exact (detail_fetch_success Z bob_selected [latest_users_task] [] "u-2"
           detail_arrives _ _ eq_refl eq_refl eq_refl eq_refl).
Defined.

Lemma detail_fetch_both_fail_witness :
  let w' := settle [latest_users_task] (detail_task "u-2") [] both_fail
              (@bob_selected Z) in
  console w' = [[LogThrown (QueryFailed permission_denied)]] /\
  error (state w') = Some "Failed to load data" /\
  feedback (state w') = [sample_feedback] /\
  items (state w') = [sample_item] /\
  loading (state w') = false /\
  unhandled w' = [].
Proof.
  exact (detail_fetch_both_fail Z bob_selected [latest_users_task] [] "u-2"
           both_fail _ _ permission_denied quota_exceeded
           eq_refl eq_refl eq_refl eq_refl).
Defined.

Lemma detail_fetch_rejected_witness :
  let w' := settle [latest_users_task] (detail_task "u-2") [] promise_rejects
              (@bob_selected Z) in
  console w' = [[LogThrown (Rejection "Failed to fetch")]] /\
  error (state w') = Some "Failed to load data" /\
  feedback (state w') = [sample_feedback] /\
  items (state w') = [sample_item] /\
  loading (state w') = false /\
  unhandled w' = [] /\
  tasks w' = [latest_users_task].
Proof.
  exact (detail_fetch_rejected Z bob_selected [latest_users_task] [] "u-2"
           promise_rejects (Rejection "Failed to fetch") eq_refl eq_refl).
Defined.


Arguments nothing_stored {number}.
Arguments early_selection {number}.
Arguments setError {number} e.
Arguments setUsers {number} l.
Arguments setSelectedEmail {number} e.
Arguments latest_users_strip {number} Date_toLocaleString latestUsers.
Arguments email_select {number} selectedEmail users.
Arguments awaits_all_users {number} t.

Lemma users_fetch_failure_witness :
  let w' := settle [latest_users_task] all_users_task [] users_fail (@mount Z) in
  state w' = apply_setter (setError (Some "Failed to load users")) initial_state /\
  console w' = [[LogPg permission_denied]] /\
  network w' = [latest_users_query; all_users_query] /\
  unhandled w' = [] /\
  tasks w' = [latest_users_task].
Proof.
  exact (users_fetch_failure Z mount [latest_users_task] [] users_fail None
           permission_denied eq_refl eq_refl).
Defined.

Lemma users_arrival_witness :
  let w := @early_selection Z in
  let w' := settle [latest_users_task] all_users_task [] users_arrive w in
  (error (state w) = Some "Failed to load data" /\
   selectedEmail (state w) = Some "bob@example.com") /\
  users (state w') = [alice; bob] /\
  loading (state w') = true /\
  error (state w') = None /\
  network w' = network w ++ [feedback_query "u-2"; items_query "u-2"] /\
  tasks w' = [latest_users_task; detail_task "u-2"] /\
  state (@users_loaded Z) = apply_setter (setUsers [alice; bob]) initial_state.
Proof.
  cbv zeta. split; [split; reflexivity|].
  destruct (users_arrival Z early_selection [latest_users_task] [] users_arrive
              (Some [alice; bob]) eq_refl eq_refl) as [Hu [_ Hsel]].
  destruct (Hsel "bob@example.com" bob eq_refl ltac:(discriminate) eq_refl)
    as [Hl [He [_ [_ [_ [Hn Ht]]]]]].
  destruct (users_arrival Z mount [latest_users_task] [] users_arrive
              (Some [alice; bob]) eq_refl eq_refl) as [_ [Hnone _]].
  destruct (Hnone eq_refl) as [Hs _].
  repeat split; assumption.
Defined.

Lemma selection_change_fetches_once_witness :
  onChange "alice@example.com" (@alice_selected Z) = alice_selected /\
  onChange "alice@example.com" (@users_loaded Z) =
  {| state := apply_setter (setError None)
                (apply_setter (setLoading true)
                   (apply_setter (setSelectedEmail (Some "alice@example.com"))
                      (state users_loaded)));
     console := [];
     network := [latest_users_query; all_users_query;
                 feedback_query "u-1"; items_query "u-1"];
     tasks := [latest_users_task; detail_task "u-1"];
     unhandled := [] |}.
Proof.
  split.
  - apply (proj1 (selection_change_fetches_once Z alice_selected "alice@example.com"
                    alice ltac:(discriminate) eq_refl)).
    reflexivity.
  - apply (proj2 (selection_change_fetches_once Z users_loaded "alice@example.com"
                    alice ltac:(discriminate) eq_refl)).
    discriminate.
Defined.

Lemma stale_response_overwrites_witness :
  let both := onChange "bob@example.com" (onChange "alice@example.com" (@users_loaded Z)) in
  let second_arrived :=
    settle [latest_users_task; detail_task "u-1"] (detail_task "u-2") []
      nothing_stored both in
  let first_arrived :=
    settle [latest_users_task] (detail_task "u-1") [] detail_arrives second_arrived in
  tasks both = [latest_users_task; detail_task "u-1"; detail_task "u-2"] /\
  feedback (state second_arrived) = [] /\
  tasks second_arrived = [latest_users_task; detail_task "u-1"] /\
  selectedEmail (state first_arrived) = Some "bob@example.com" /\
  feedback (state first_arrived) = [sample_feedback] /\
  items (state first_arrived) = [sample_item] /\
  loading (state first_arrived) = false /\
  tasks first_arrived = [latest_users_task].
Proof.
  apply (stale_response_overwrites Z users_loaded "alice@example.com"
           "bob@example.com" alice bob detail_arrives nothing_stored
           {| res_data := Some [sample_feedback]; res_error := None |}
           {| res_data := Some []; res_error := None |}
           {| res_data := Some [sample_item]; res_error := None |}
           {| res_data := None; res_error := None |});
    try reflexivity; discriminate.
Defined.

Lemma only_reads_for_loaded_users_witness :
  (exists uids,
     network (@bob_selected Z) =
       [latest_users_query; all_users_query] ++ detail_queries uids /\
     Forall (fun uid => In uid (map user_id (users (state (@bob_selected Z))))) uids) /\
  List.length (filter awaits_all_users (tasks (@bob_selected Z))) <= 1 /\
  (filter awaits_all_users (tasks (@bob_selected Z)) <> [] ->
   users (state (@bob_selected Z)) = []).
Proof.
  exact (only_reads_for_loaded_users Z bob_selected
           (proj2 (proj2 (proj2 (sample_session_reachable Z))))).
Defined.

Lemma only_generic_messages_witness :
  known_message
    (error (state (settle [latest_users_task] (detail_task "u-2") [] feedback_fails
                     (@bob_selected Z)))).
Proof.
  apply only_generic_messages.
  apply (@reachable_step Z bob_selected).
  - exact (proj2 (proj2 (proj2 (sample_session_reachable Z)))).
  - apply (@step_settle Z bob_selected [latest_users_task] (detail_task "u-2") []
             feedback_fails). reflexivity.
Defined.

Lemma page_after_failed_fetch_witness :
  App (fun d => d)
    (state (settle [latest_users_task] (detail_task "u-2") [] feedback_fails
              (@bob_selected Z))) =
  Elem "div" []
    [latest_users_strip (fun d => d) [];
     Elem "h2" [] [Text "Transcript Feedback Viewer"];
     Elem "label" [("htmlFor", "email")] [Text "Filter by user email:"];
     email_select (Some "bob@example.com") [alice; bob];
     Nothing;
     Elem "p" [] [Text "Failed to load data"];
     items_table [sample_item];
     feedback_list (fun d => d) [sample_feedback]].
Proof.
  apply (page_after_failed_fetch Z (fun d => d) bob_selected [latest_users_task] []
           "u-2" feedback_fails).
  right. exists {| res_data := None; res_error := Some permission_denied |}.
  exists {| res_data := Some []; res_error := None |}.
  split; [reflexivity | left; discriminate].
Defined.

Lemma page_while_loading_witness :
  App (fun d => d) (state (onChange "bob@example.com" (@showing_alice Z))) =
  Elem "div" []
    [latest_users_strip (fun d => d) [];
     Elem "h2" [] [Text "Transcript Feedback Viewer"];
     Elem "label" [("htmlFor", "email")] [Text "Filter by user email:"];
     email_select (Some "bob@example.com") [alice; bob];
     Elem "p" [] [Text "Loading data..."];
     Nothing;
     items_table [sample_item];
     feedback_list (fun d => d) [sample_feedback]].
Proof.
  apply (page_while_loading Z (fun d => d) showing_alice "bob@example.com" bob);
    [discriminate | reflexivity | discriminate].
Defined.


(** * The rendering properties on the sample session *)

Lemma was_correct_falsy_branch_witness :
  In sample_feedback (feedback (state (@showing_alice Z))) /\
  within (feedback_entry (fun d => d) sample_feedback)
    (App (fun d => d) (state (@showing_alice Z))) /\
  within (Elem "div" [] [strong "Was Correct:"; Text " "; Text "❌ No"])
    (feedback_entry (fun d => d) (sample_feedback (number := Z))).
Proof.
  assert (Hin : In sample_feedback (feedback (state (@showing_alice Z))))
    by (left; reflexivity).
  destruct (was_correct_falsy_branch Z (fun d => d) (state showing_alice)
              sample_feedback Hin) as [Hpage [[H _]|[_ [_ Hline]]]].
  - discriminate H.
  - repeat split; assumption.
Defined.

Lemma notes_placeholder_witness :
  In sample_item (items (state (@showing_alice SafeInteger))) /\
  within (item_row SafeInteger sample_item)
    (App (fun d => d) (state (@showing_alice SafeInteger))) /\
  item_row SafeInteger sample_item =
    Elem "tr" [("key", "i-1")]
      [Elem "td" [] [Text "keys"];
       Elem "td" [] [Text "drawer"];
       Elem "td" [] [em "–"]].
Proof.
  assert (Hin : In sample_item (items (state (@showing_alice SafeInteger))))
    by (left; reflexivity).
  destruct (notes_placeholder SafeInteger SafeInteger_toString (fun d => d)
              (state showing_alice) sample_item Hin)
    as [Hpage [[_ [_ [_ Hrow]]]|[t [Hn [Ht _]]]]].
  - repeat split; assumption.
  - exfalso. apply Ht. injection Hn as <-. reflexivity.
Defined.

Lemma confidence_nullish_coalescing_witness :
  let f := with_confidence (val safe_zero) sample_feedback in
  let s := apply_setter (setFeedback [f]) initial_state in
  within (feedback_entry (fun d => d) f) (App (fun d => d) s) /\
  within (Elem "div" [] [strong "Confidence:"; Text " "; Num safe_zero])
    (feedback_entry (fun d => d) f) /\
  textContent SafeInteger_toString
    (Elem "div" [] [strong "Confidence:"; Text " "; Num safe_zero]) = "Confidence: 0".
Proof.
  cbv zeta.
  destruct confidence_nullish_coalescing as [Hline [_ [_ [Hzero _]]]].
  destruct (Hline SafeInteger (fun d => d)
              (apply_setter (setFeedback [with_confidence (val safe_zero) sample_feedback])
                 initial_state)
              (with_confidence (val safe_zero) sample_feedback)
              (or_introl eq_refl)) as [Hpage Hconf].
  split; [exact Hpage|]. split; [exact Hconf|].
  exact (proj2 (Hzero (with_confidence (val safe_zero) sample_feedback) eq_refl)).
Defined.
